(** * DHT22 driver (src/dht22.c, src/dht22.h): shallow embedding

    The driver is modelled as explicit state passing over a [machine]
    holding the three pieces of state that [dht22_read] touches:
    - [drv]: the static [dht22_state] of dht22.c;
    - [out]: the caller's two float result slots ([*temperature], [*humidity]);
    - [hw]: the hardware seen through the Pico SDK: a microsecond clock,
      the outcomes of the successive GPIO polls of [wait_for_pin_state],
      and the log of every GPIO and sleep call, in order.

    Unsigned 32-bit arithmetic is written out with [mod 2^32], [uint8_t]
    with [mod 2^8].  The float and double arithmetic of
    [dht22_convert_data] is modelled as exact rational arithmetic ([Q]):
    [x * 0.1] is [inject_Z x * (1#10)]. *)

From Stdlib Require Import ZArith QArith Qround List Bool Lia.
Import ListNotations.

Open Scope Z_scope.

(** ** Constants of dht22.h and dht22.c *)

Definition DHT22_OK : Z := 0.
Definition DHT22_ERROR_CHECKSUM : Z := -1.
Definition DHT22_ERROR_TIMEOUT : Z := -2.
Definition DHT22_ERROR_INVALID_DATA : Z := -3.
Definition DHT22_ERROR_NOT_INITIALIZED : Z := -4.

Definition DHT22_START_SIGNAL_DELAY : Z := 18000.
Definition DHT22_RESPONSE_WAIT_TIMEOUT : Z := 200.
Definition DHT22_BIT_THRESHOLD : Z := 50.
Definition DHT22_MIN_INTERVAL_MS : Z := 2000.

(** ** State *)

(** [dht22_state_t]; the pacing state "never read" is encoded, as in the
    source, by [last_read_time_ms = 0]. *)
Record dht22_state_t := mk_dht22_state {
  last_read_time_ms : Z;
  pin : Z;
  initialized : bool
}.

(** The caller's result slots. *)
Record slots := mk_slots {
  temperature : Q;
  humidity : Q
}.

Inductive gpio_dir := GPIO_IN | GPIO_OUT.

(** Hardware calls made by the driver, as they appear in the log. *)
Inductive io_event :=
| EvGpioInit (p : Z)
| EvSetPulls (p : Z) (up down : bool)
| EvSetDir (p : Z) (d : gpio_dir)
| EvPut (p : Z) (v : Z)
| EvSleepUs (us : Z)
| EvSleepMs (ms : Z)
| EvWait (p : Z) (level : bool) (timeout_us : Z).

(** The hardware: [now_us] is the 64-bit microsecond time since boot;
    [edge_oracle] gives, for each successive call of [wait_for_pin_state],
    either [Some dt] (the line reached the awaited level after [dt]
    microseconds of polling) or [None] (it did not within the timeout). *)
Record world := mk_world {
  now_us : Z;
  edge_oracle : list (option N);
  io_log : list io_event
}.

Record machine := mk_machine {
  drv : dht22_state_t;
  out : slots;
  hw : world
}.

(** ** A state monad over [machine] *)

Definition M (A : Type) := machine -> A * machine.

Definition ret {A} (a : A) : M A := fun m => (a, m).

Definition bind {A B} (c : M A) (f : A -> M B) : M B :=
  fun m => let (a, m1) := c m in f a m1.

Notation "'let*' x ':=' c1 'in' c2" := (bind c1 (fun x => c2))
  (at level 61, x pattern, c1 at next level, right associativity).
Notation "c1 ;; c2" := (bind c1 (fun _ => c2))
  (at level 61, right associativity).

Definition get_drv : M dht22_state_t := fun m => (drv m, m).
Definition put_drv (s : dht22_state_t) : M unit :=
  fun m => (tt, mk_machine s (out m) (hw m)).
Definition get_out : M slots := fun m => (out m, m).
Definition put_out (o : slots) : M unit :=
  fun m => (tt, mk_machine (drv m) o (hw m)).
Definition modify_hw (f : world -> world) : M unit :=
  fun m => (tt, mk_machine (drv m) (out m) (f (hw m))).

Definition log_event (e : io_event) : M unit :=
  modify_hw (fun w => mk_world (now_us w) (edge_oracle w) (io_log w ++ [e])).
Definition advance_us (d : Z) : M unit :=
  modify_hw (fun w => mk_world (now_us w + d) (edge_oracle w) (io_log w)).

(** ** Pico SDK primitives *)

Definition uint32 (x : Z) : Z := x mod 2 ^ 32.

Definition time_us_32 : M Z := fun m => (uint32 (now_us (hw m)), m).

(** [to_ms_since_boot(get_absolute_time())]. *)
Definition ms_of (t_us : Z) : Z := uint32 (t_us / 1000).
Definition ms_since_boot : M Z := fun m => (ms_of (now_us (hw m)), m).

Definition gpio_init (p : Z) : M unit := log_event (EvGpioInit p).
Definition gpio_set_pulls (p : Z) (up down : bool) : M unit :=
  log_event (EvSetPulls p up down).
Definition gpio_set_dir (p : Z) (d : gpio_dir) : M unit := log_event (EvSetDir p d).
Definition gpio_put (p v : Z) : M unit := log_event (EvPut p v).
Definition sleep_us (d : Z) : M unit := log_event (EvSleepUs d) ;; advance_us d.
Definition sleep_ms (d : Z) : M unit := log_event (EvSleepMs d) ;; advance_us (1000 * d).

Definition pop_edge : M (option N) :=
  fun m =>
    match edge_oracle (hw m) with
    | [] => (None, m)
    | o :: rest =>
        (o, mk_machine (drv m) (out m)
               (mk_world (now_us (hw m)) rest (io_log (hw m))))
    end.

(** [wait_for_pin_state]: the polling loop either sees the level after
    [dt] microseconds (returns 0) or gives up once more than [timeout_us]
    microseconds have passed (returns -1). *)
Definition wait_for_pin_state (p : Z) (state : bool) (timeout_us : Z) : M Z :=
  log_event (EvWait p state timeout_us) ;;
  let* o := pop_edge in
  match o with
  | Some dt => advance_us (Z.of_N dt) ;; ret 0
  | None => advance_us (timeout_us + 1) ;; ret (-1)
  end.

(** ** dht22.c *)

Definition dht22_init (p : Z) : M Z :=
  gpio_init p ;;
  gpio_set_pulls p true false ;;
  let* s := get_drv in
  put_drv (mk_dht22_state (last_read_time_ms s) p (initialized s)) ;;
  let* s := get_drv in
  put_drv (mk_dht22_state 0 (pin s) (initialized s)) ;;
  let* s := get_drv in
  put_drv (mk_dht22_state (last_read_time_ms s) (pin s) true) ;;
  ret DHT22_OK.

Definition dht22_send_start_signal (p : Z) : M Z :=
  gpio_set_dir p GPIO_OUT ;;
  gpio_put p 0 ;;
  sleep_us DHT22_START_SIGNAL_DELAY ;;
  gpio_put p 1 ;;
  sleep_us 30 ;;
  gpio_set_dir p GPIO_IN ;;
  ret DHT22_OK.

Definition dht22_wait_for_response (p : Z) : M Z :=
  let* r := wait_for_pin_state p false DHT22_RESPONSE_WAIT_TIMEOUT in
  if negb (r =? 0) then ret DHT22_ERROR_TIMEOUT else
  let* r := wait_for_pin_state p true DHT22_RESPONSE_WAIT_TIMEOUT in
  if negb (r =? 0) then ret DHT22_ERROR_TIMEOUT else
  let* r := wait_for_pin_state p false DHT22_RESPONSE_WAIT_TIMEOUT in
  if negb (r =? 0) then ret DHT22_ERROR_TIMEOUT else
  ret DHT22_OK.

(** [data[k] = v] on the 5-byte buffer. *)
Fixpoint update_nth (k : nat) (v : Z) (l : list Z) : list Z :=
  match l, k with
  | [], _ => []
  | _ :: t, O => v :: t
  | x :: t, S k' => x :: update_nth k' v t
  end.

(** [data[i / 8] |= (1 << (7 - (i % 8)))], stored back into a [uint8_t]. *)
Definition dht22_set_bit (data : list Z) (i : nat) : list Z :=
  update_nth (i / 8)
    ((Z.lor (nth (i / 8) data 0) (Z.shiftl 1 (Z.of_nat (7 - i mod 8)))) mod 2 ^ 8)
    data.

(** The [for (i = 0; i < 40; i++)] loop of [dht22_read_data], from bit [i]
    with [fuel] iterations left. *)
Fixpoint dht22_read_data_loop (p : Z) (i fuel : nat) (data : list Z) : M (Z * list Z) :=
  match fuel with
  | O => ret (DHT22_OK, data)
  | S fuel' =>
      let* r := wait_for_pin_state p true DHT22_RESPONSE_WAIT_TIMEOUT in
      if negb (r =? 0) then ret (DHT22_ERROR_TIMEOUT, data) else
      let* pulse_start := time_us_32 in
      let* r := wait_for_pin_state p false DHT22_RESPONSE_WAIT_TIMEOUT in
      if negb (r =? 0) then ret (DHT22_ERROR_TIMEOUT, data) else
      let* t := time_us_32 in
      let pulse_length := uint32 (t - pulse_start) in
      let data := if pulse_length >? DHT22_BIT_THRESHOLD
                  then dht22_set_bit data i else data in
      dht22_read_data_loop p (S i) fuel' data
  end.

Definition dht22_read_data (p : Z) (data : list Z) : M (Z * list Z) :=
  dht22_read_data_loop p 0 40 data.

Definition dht22_verify_checksum (data : list Z) : Z :=
  let checksum := (nth 0 data 0 + nth 1 data 0 + nth 2 data 0 + nth 3 data 0) mod 2 ^ 8 in
  if negb (checksum =? nth 4 data 0) then DHT22_ERROR_CHECKSUM else DHT22_OK.

Definition Qltb (x y : Q) : bool := negb (Qle_bool y x).

(** [dht22_convert_data] on the caller's slots. *)
Definition dht22_convert_data (data : list Z) (o : slots) : Z * slots :=
  let o := mk_slots (temperature o)
             (inject_Z (Z.lor (Z.shiftl (nth 0 data 0) 8) (nth 1 data 0)) * (1 # 10)) in
  let o := mk_slots
             (inject_Z (Z.lor (Z.shiftl (Z.land (nth 2 data 0) 127) 8) (nth 3 data 0)) * (1 # 10))
             (humidity o) in
  let o := if negb (Z.land (nth 2 data 0) 128 =? 0)
           then mk_slots (temperature o * (-1 # 1)) (humidity o) else o in
  if Qltb (humidity o) 0 || Qltb 100 (humidity o)
     || Qltb (temperature o) (-40) || Qltb 80 (temperature o)
  then (DHT22_ERROR_INVALID_DATA, o)
  else (DHT22_OK, o).

Definition dht22_read : M Z :=
  let data := [0; 0; 0; 0; 0] in
  let* s := get_drv in
  if negb (initialized s) then ret DHT22_ERROR_NOT_INITIALIZED else
  let* current_time := ms_since_boot in
  (if (uint32 (current_time - last_read_time_ms s) <? DHT22_MIN_INTERVAL_MS)
      && negb (last_read_time_ms s =? 0)
   then sleep_ms (uint32 (DHT22_MIN_INTERVAL_MS - uint32 (current_time - last_read_time_ms s)))
   else ret tt) ;;
  let* s := get_drv in
  let* result := dht22_send_start_signal (pin s) in
  if negb (result =? DHT22_OK) then ret result else
  let* s := get_drv in
  let* result := dht22_wait_for_response (pin s) in
  if negb (result =? DHT22_OK) then ret result else
  let* s := get_drv in
  let* (result, data) := dht22_read_data (pin s) data in
  if negb (result =? DHT22_OK) then ret result else
  let* t := ms_since_boot in
  let* s := get_drv in
  put_drv (mk_dht22_state t (pin s) (initialized s)) ;;
  let result := dht22_verify_checksum data in
  if negb (result =? DHT22_OK) then ret result else
  let* o := get_out in
  let '(result, o) := dht22_convert_data data o in
  put_out o ;;
  ret result.

(** ** Line behaviour used to state the properties

    [bits_oracle ps]: the outcomes of the 80 bit-edge polls when every
    bit [(hi, lo)] waits [hi] microseconds for the rising edge and the line
    then stays high for [lo] microseconds. *)
Fixpoint bits_oracle (ps : list (N * N)) : list (option N) :=
  match ps with
  | [] => []
  | (hi, lo) :: ps' => Some hi :: Some lo :: bits_oracle ps'
  end.

(** The high-pulse length that [dht22_read_data] measures for [(hi, lo)]. *)
Definition pulse_of (hl : N * N) : Z := uint32 (Z.of_N (snd hl)).

(** Bits [i], [i+1], ... set from the pulse lengths [ls], as the loop does. *)
Fixpoint decode_pulses (i : nat) (ls : list Z) (data : list Z) : list Z :=
  match ls with
  | [] => data
  | l :: ls' =>
      decode_pulses (S i) ls'
        (if l >? DHT22_BIT_THRESHOLD then dht22_set_bit data i else data)
  end.

(** The frame captured from the pulses [ps]. *)
Definition captured_frame (ps : list (N * N)) : list Z :=
  decode_pulses 0 (map pulse_of ps) [0; 0; 0; 0; 0].

(** Pulses a sensor sends for the frame [d]: 28 us for a 0, 70 us for a 1. *)
Definition byte_pulses (b : Z) : list (N * N) :=
  map (fun k => (50%N, if Z.testbit b (7 - k) then 70%N else 28%N)) [0; 1; 2; 3; 4; 5; 6; 7].

Definition frame_oracle (d : list Z) : list (option N) :=
  [Some 80%N; Some 80%N; Some 80%N] ++ bits_oracle (flat_map byte_pulses d).

Definition machine_at (s : dht22_state_t) (o : slots) (t_us : Z) (edges : list (option N)) : machine :=
  mk_machine s o (mk_world t_us edges []).

(** The conversion formulas of the specification, over a 5-byte frame:
    humidity [((byte0 << 8) | byte1) * 0.1]; temperature of magnitude
    [(((byte2 & 0x7F) << 8) | byte3) * 0.1], negated when bit 7 of byte2
    is set. *)
Definition spec_humidity (d : list Z) : Q :=
  Qmult (inject_Z (Z.lor (Z.shiftl (nth 0 d 0) 8) (nth 1 d 0))) (1 # 10).

Definition spec_temperature (d : list Z) : Q :=
  let mag := Qmult (inject_Z (Z.lor (Z.shiftl (Z.land (nth 2 d 0) 127) 8) (nth 3 d 0))) (1 # 10) in
  if Z.testbit (nth 2 d 0) 7 then Qopp mag else mag.

(** Concrete machines: an initialised driver that was never read, at
    t = 5 s, in front of a sensor sending a given frame. *)
Definition sensor_sending (d : list Z) : machine :=
  machine_at (mk_dht22_state 0 2 true) (mk_slots 0 0) 5000000 (frame_oracle d).

(** 40.0 %RH, 20.0 C, checksum 0x59. *)
Definition m_good_frame : machine := sensor_sending [1; 144; 0; 200; 89].

(** Checksum 0xB4 is right, humidity 100.1 %RH is out of range. *)
Definition m_humid_frame : machine := sensor_sending [3; 233; 0; 200; 180].

(** Checksum byte 0xFF where the sum of the others is 0x40. *)
Definition m_bad_checksum_frame : machine := sensor_sending [2; 140; 128; 50; 255].

Definition m_uninitialized : machine :=
  machine_at (mk_dht22_state 0 2 false) (mk_slots 0 0) 5000000 [].

(** Last read at 4500 ms, now 5000 ms. *)
Definition m_recently_read : machine :=
  machine_at (mk_dht22_state 4500 2 true) (mk_slots 0 0) 5000000
    (frame_oracle [1; 144; 0; 200; 89]).

(** A read whose capture ends after the 32-bit millisecond clock has
    wrapped: it starts 21710 us before [2^32] ms since boot (about 49.7
    days) and ends at [2^32] ms + 100 us, where [to_ms_since_boot] gives 0. *)
Definition m_wrap : machine :=
  machine_at (mk_dht22_state 0 2 true) (mk_slots 0 0) (2 ^ 32 * 1000 - 21710)
    (frame_oracle [1; 144; 0; 200; 89]).

Definition m_bits : machine :=
  machine_at (mk_dht22_state 0 2 true) (mk_slots 0 0) 0
    (bits_oracle (flat_map byte_pulses [1; 144; 0; 200; 89])).

(** A sensor that answers the handshake, starts the first bit and then
    stops driving the line. *)
Definition m_sensor_stops : machine :=
  machine_at (mk_dht22_state 0 2 true) (mk_slots 0 0) 5000000
    [Some 80%N; Some 80%N; Some 80%N; Some 50%N; None].

(** ** environment-monitoring.c

    The application around the driver.  Its state holds the driver's
    [machine] (whose result slots are the globals [temperature] and
    [humidity], the ones passed to [dht22_read]), [main]'s local
    [servo_triggered], the globals [temperature_result], [ldr_value] and
    [mq2_value], the ADC (the value each successive [adc_read] returns)
    and the log of the application's own SDK calls.  [printf] and
    [stdio_init_all] have no effect on this state and are left out. *)

Definition DHT22_PIN : Z := 2.
Definition SERVO_PIN : Z := 3.
Definition MQ2_PIN : Z := 27.
Definition MQ2_ADC_CHANNEL : Z := 1.
Definition RELE_PIN : Z := 5.
Definition LDR_PIN : Z := 26.
Definition RED_LED_PIN : Z := 4.
Definition LDR_THRESHOLD : Z := 1500.

Inductive app_event :=
| AppGpioInit (p : Z)
| AppGpioSetDir (p : Z) (d : gpio_dir)
| AppGpioPut (p v : Z)
| AppGpioSetFunctionPwm (p : Z)
| AppPwmSetWrap (slice wrap : Z)
| AppPwmSetClkdiv (slice : Z) (div : Q)
| AppPwmSetEnabled (slice : Z) (on : bool)
| AppPwmSetGpioLevel (p level : Z)
| AppAdcInit
| AppAdcGpioInit (p : Z)
| AppAdcSelectInput (ch : Z).

Record app_state := mk_app_state {
  mach : machine;
  servo_triggered : bool;
  temperature_result : Z;
  ldr_value : Z;
  mq2_value : Z;
  adc_next : nat -> Z;
  adc_count : nat;
  app_log : list app_event
}.

Definition with_mach (m : machine) (s : app_state) : app_state :=
  mk_app_state m (servo_triggered s) (temperature_result s) (ldr_value s) (mq2_value s)
    (adc_next s) (adc_count s) (app_log s).
Definition with_servo_triggered (b : bool) (s : app_state) : app_state :=
  mk_app_state (mach s) b (temperature_result s) (ldr_value s) (mq2_value s)
    (adc_next s) (adc_count s) (app_log s).
Definition with_temperature_result (r : Z) (s : app_state) : app_state :=
  mk_app_state (mach s) (servo_triggered s) r (ldr_value s) (mq2_value s)
    (adc_next s) (adc_count s) (app_log s).
Definition with_ldr_value (v : Z) (s : app_state) : app_state :=
  mk_app_state (mach s) (servo_triggered s) (temperature_result s) v (mq2_value s)
    (adc_next s) (adc_count s) (app_log s).
Definition with_mq2_value (v : Z) (s : app_state) : app_state :=
  mk_app_state (mach s) (servo_triggered s) (temperature_result s) (ldr_value s) v
    (adc_next s) (adc_count s) (app_log s).
Definition app_emit (e : app_event) (s : app_state) : app_state :=
  mk_app_state (mach s) (servo_triggered s) (temperature_result s) (ldr_value s) (mq2_value s)
    (adc_next s) (adc_count s) (app_log s ++ [e]).

(** A driver call made by the application. *)
Definition run_driver {A} (c : M A) (s : app_state) : A * app_state :=
  let (a, m) := c (mach s) in (a, with_mach m s).

(** [adc_read]: the next conversion result. *)
Definition adc_read (s : app_state) : Z * app_state :=
  (adc_next s (adc_count s),
   mk_app_state (mach s) (servo_triggered s) (temperature_result s) (ldr_value s)
     (mq2_value s) (adc_next s) (S (adc_count s)) (app_log s)).

(** [pwm_gpio_to_slice_num] of the RP2040. *)
Definition pwm_gpio_to_slice_num (gpio : Z) : Z := Z.land (Z.shiftr gpio 1) 7.

Definition turn_off_red_led (s : app_state) : app_state :=
  app_emit (AppGpioPut RED_LED_PIN 0) s.

Definition turn_on_red_led (s : app_state) : app_state :=
  app_emit (AppGpioPut RED_LED_PIN 1) s.

(** [ldr_voltage] is only printed. *)
Definition ldr_monitoring (s : app_state) : app_state :=
  let s := app_emit (AppAdcSelectInput (LDR_PIN - 26)) s in
  let (v, s) := adc_read s in
  let s := with_ldr_value v s in
  if v >? LDR_THRESHOLD then turn_on_red_led s else turn_off_red_led s.

Definition setup_led (s : app_state) : app_state :=
  app_emit (AppGpioPut RED_LED_PIN 0)
    (app_emit (AppGpioSetDir RED_LED_PIN GPIO_OUT) (app_emit (AppGpioInit RED_LED_PIN) s)).

Definition setup_rele (s : app_state) : app_state :=
  app_emit (AppGpioPut RELE_PIN 0)
    (app_emit (AppGpioSetDir RELE_PIN GPIO_OUT) (app_emit (AppGpioInit RELE_PIN) s)).

Definition setup_adc (s : app_state) : app_state :=
  app_emit (AppAdcGpioInit MQ2_PIN) (app_emit (AppAdcGpioInit LDR_PIN) (app_emit AppAdcInit s)).

Definition init_pwm_servo (gpio : Z) (s : app_state) : app_state :=
  let s := app_emit (AppGpioSetFunctionPwm gpio) s in
  let slice := pwm_gpio_to_slice_num gpio in
  let s := app_emit (AppPwmSetWrap slice 20000) s in
  let s := app_emit (AppPwmSetClkdiv slice 125) s in
  app_emit (AppPwmSetEnabled slice true) s.

(** [toggle_servo], with the float angle as a rational: a finite angle;
    NaN, for which both clamps are skipped and the [(uint16_t)] conversion
    is undefined, is not modelled, and the float rounding of
    [angle * 10.0f] is left out.  The conversion [(uint16_t)] of the
    clamped product, which lies in [[0, 1800]], truncates, that is takes
    the floor; [600 + ...] is stored in the [uint16_t] [pulso]. *)
Definition toggle_servo (gpio : Z) (angle : Q) (s : app_state) : app_state :=
  let angle := if Qltb angle 0 then 0%Q else angle in
  let angle := if Qltb 180 angle then 180%Q else angle in
  let pulso := (600 + Qfloor (Qmult angle (Qdiv 1800 180)) mod 2 ^ 16) mod 2 ^ 16 in
  app_emit (AppPwmSetGpioLevel gpio pulso) s.

(** [temperature > 30.0]. *)
Definition is_high_temperature (s : app_state) : bool :=
  Qltb 30 (temperature (out (mach s))).

Definition init_DHT22 (s : app_state) : app_state :=
  let (r, s) := run_driver (dht22_init DHT22_PIN) s in
  with_temperature_result r s.

Definition setup (s : app_state) : app_state :=
  setup_rele (setup_led (setup_adc (init_pwm_servo SERVO_PIN (init_DHT22 s)))).

Definition temperature_monitoring (s : app_state) : app_state :=
  let (r, s) := run_driver dht22_read s in
  let s := with_temperature_result r s in
  if r =? DHT22_OK then
    if is_high_temperature s && negb (servo_triggered s) then
      toggle_servo SERVO_PIN 180 (with_servo_triggered true s)
    else if negb (is_high_temperature s) && servo_triggered s then
      toggle_servo SERVO_PIN 0 (with_servo_triggered false s)
    else s
  else s.

(** [mq2_voltage] is only printed. *)
Definition mq2_monitoring (s : app_state) : app_state :=
  let s := app_emit (AppAdcSelectInput MQ2_ADC_CHANNEL) s in
  let (v, s) := adc_read s in
  let s := with_mq2_value v s in
  if v >? 2000 then app_emit (AppGpioPut RELE_PIN 1) s
  else app_emit (AppGpioPut RELE_PIN 0) s.

(** One pass of the [while (1)] loop of [main]. *)
Definition main_loop_body (s : app_state) : app_state :=
  mq2_monitoring (ldr_monitoring (temperature_monitoring s)).

Fixpoint main_loop (n : nat) (s : app_state) : app_state :=
  match n with
  | O => s
  | S n' => main_loop n' (main_loop_body s)
  end.

(** [main] after [n] passes of its loop. *)
Definition main_after (n : nat) (s : app_state) : app_state :=
  main_loop n (setup (with_servo_triggered false s)).

(** The level last set on the servo's PWM pin, and the value last written
    to a GPIO pin, by the application. *)
Definition last_servo_level (l : list app_event) : option Z :=
  fold_left (fun acc e => match e with
                          | AppPwmSetGpioLevel g v => if g =? SERVO_PIN then Some v else acc
                          | _ => acc
                          end) l None.

Definition last_put (p : Z) (l : list app_event) : option Z :=
  fold_left (fun acc e => match e with
                          | AppGpioPut g v => if g =? p then Some v else acc
                          | _ => acc
                          end) l None.

(** A board at power-up: the driver not yet initialised, nothing logged. *)
Definition app_at_boot (m : machine) (samples : nat -> Z) : app_state :=
  mk_app_state m false 0 0 0 samples 0 [].

(** * Properties *)

(** ** The hardware log only grows *)

Definition appends {A} (c : M A) : Prop :=
  forall m, exists l, io_log (hw (snd (c m))) = io_log (hw m) ++ l.

Lemma appends_ret {A} (a : A) : appends (ret a).
Proof. intros m. exists []. now rewrite app_nil_r. Qed.

Lemma appends_bind {A B} (c : M A) (f : A -> M B) :
  appends c -> (forall a, appends (f a)) -> appends (bind c f).
Proof.
  intros Hc Hf m. unfold bind. specialize (Hc m).
  destruct (c m) as [a m1] eqn:E. destruct Hc as [l1 Hl1].
  destruct (Hf a m1) as [l2 Hl2]. exists (l1 ++ l2).
  simpl in Hl1. rewrite Hl2, Hl1, app_assoc. reflexivity.
Qed.

Lemma appends_log_event e : appends (log_event e).
Proof. intros m. now exists [e]. Qed.

Lemma appends_advance_us d : appends (advance_us d).
Proof. intros m. exists []. simpl. now rewrite app_nil_r. Qed.

Lemma appends_get_drv : appends get_drv.
Proof. intros m. exists []. now rewrite app_nil_r. Qed.

Lemma appends_put_drv s : appends (put_drv s).
Proof. intros m. exists []. now rewrite app_nil_r. Qed.

Lemma appends_get_out : appends get_out.
Proof. intros m. exists []. now rewrite app_nil_r. Qed.

Lemma appends_put_out o : appends (put_out o).
Proof. intros m. exists []. now rewrite app_nil_r. Qed.

Lemma appends_time_us_32 : appends time_us_32.
Proof. intros m. exists []. now rewrite app_nil_r. Qed.

Lemma appends_ms_since_boot : appends ms_since_boot.
Proof. intros m. exists []. now rewrite app_nil_r. Qed.

Lemma appends_pop_edge : appends pop_edge.
Proof.
  intros m. exists []. unfold pop_edge.
  destruct (edge_oracle (hw m)); simpl; now rewrite app_nil_r.
Qed.

Create HintDb appends_db.
#[export] Hint Resolve appends_ret appends_log_event appends_advance_us appends_get_drv
  appends_put_drv appends_get_out appends_put_out appends_time_us_32
  appends_ms_since_boot appends_pop_edge : appends_db.

Ltac solve_appends :=
  repeat first
    [ solve [auto with appends_db]
    | refine (appends_bind _ _ _ _); [| intros ]
    | progress (match goal with |- appends (if ?b then _ else _) => destruct b end)
    | progress (match goal with |- appends (match ?x with _ => _ end) => destruct x end) ].

Lemma appends_wait_for_pin_state p st t : appends (wait_for_pin_state p st t).
Proof. unfold wait_for_pin_state. solve_appends. Qed.
#[export] Hint Resolve appends_wait_for_pin_state : appends_db.

Lemma appends_sleep_us d : appends (sleep_us d).
Proof. unfold sleep_us. solve_appends. Qed.
Lemma appends_sleep_ms d : appends (sleep_ms d).
Proof. unfold sleep_ms. solve_appends. Qed.
Lemma appends_gpio_set_dir p d : appends (gpio_set_dir p d).
Proof. apply appends_log_event. Qed.
Lemma appends_gpio_put p v : appends (gpio_put p v).
Proof. apply appends_log_event. Qed.
#[export] Hint Resolve appends_sleep_us appends_sleep_ms appends_gpio_set_dir
  appends_gpio_put : appends_db.

Lemma appends_wait_for_response p : appends (dht22_wait_for_response p).
Proof. unfold dht22_wait_for_response. solve_appends. Qed.

Lemma appends_read_data_loop p i fuel data : appends (dht22_read_data_loop p i fuel data).
Proof.
  revert i data. induction fuel as [|fuel IH]; intros i data; simpl; solve_appends.
Qed.
Lemma appends_read_data p data : appends (dht22_read_data p data).
Proof. apply appends_read_data_loop. Qed.
#[export] Hint Resolve appends_wait_for_response appends_read_data : appends_db.

Lemma bind_run {A B} (c : M A) (f : A -> M B) (m : machine) :
  bind c f m = f (fst (c m)) (snd (c m)).
Proof. unfold bind. destruct (c m). reflexivity. Qed.

(** Running the state primitives, as rewriting rules. *)
Lemma bind_get_drv {B} (f : dht22_state_t -> M B) m : bind get_drv f m = f (drv m) m.
Proof. reflexivity. Qed.
Lemma bind_get_out {B} (f : slots -> M B) m : bind get_out f m = f (out m) m.
Proof. reflexivity. Qed.
Lemma bind_ms_since_boot {B} (f : Z -> M B) m :
  bind ms_since_boot f m = f (ms_of (now_us (hw m))) m.
Proof. reflexivity. Qed.
Lemma bind_put_drv {B} s (f : unit -> M B) m :
  bind (put_drv s) f m = f tt (mk_machine s (out m) (hw m)).
Proof. reflexivity. Qed.
Lemma bind_put_out {B} o (f : unit -> M B) m :
  bind (put_out o) f m = f tt (mk_machine (drv m) o (hw m)).
Proof. reflexivity. Qed.
Lemma ret_run {A} (a : A) m : ret a m = (a, m).
Proof. reflexivity. Qed.
Lemma bind_time_us_32 {B} (f : Z -> M B) m :
  bind time_us_32 f m = f (uint32 (now_us (hw m))) m.
Proof. reflexivity. Qed.

(** A poll that sees the awaited level after [dt] microseconds. *)
Lemma wait_for_pin_state_some p st t m dt rest :
  edge_oracle (hw m) = Some dt :: rest ->
  wait_for_pin_state p st t m =
    (0, mk_machine (drv m) (out m)
          (mk_world (now_us (hw m) + Z.of_N dt) rest (io_log (hw m) ++ [EvWait p st t]))).
Proof. destruct m as [s o [now orc lg]]. cbn. intros ->. reflexivity. Qed.

(** ** Driver state and result slots are untouched by the protocol steps *)

Definition keeps {A} (c : M A) : Prop :=
  forall m, drv (snd (c m)) = drv m /\ out (snd (c m)) = out m.

Lemma keeps_ret {A} (a : A) : keeps (ret a).
Proof. now intros m. Qed.

Lemma keeps_bind {A B} (c : M A) (f : A -> M B) :
  keeps c -> (forall a, keeps (f a)) -> keeps (bind c f).
Proof.
  intros Hc Hf m. rewrite bind_run. destruct (Hc m) as [H1 H2].
  destruct (Hf (fst (c m)) (snd (c m))) as [H3 H4]. split; congruence.
Qed.

Lemma keeps_log_event e : keeps (log_event e).
Proof. now intros m. Qed.
Lemma keeps_advance_us d : keeps (advance_us d).
Proof. now intros m. Qed.
Lemma keeps_get_drv : keeps get_drv.
Proof. now intros m. Qed.
Lemma keeps_time_us_32 : keeps time_us_32.
Proof. now intros m. Qed.
Lemma keeps_ms_since_boot : keeps ms_since_boot.
Proof. now intros m. Qed.
Lemma keeps_pop_edge : keeps pop_edge.
Proof. intros m. unfold pop_edge. now destruct (edge_oracle (hw m)). Qed.

Create HintDb keeps_db.
#[export] Hint Resolve keeps_ret keeps_log_event keeps_advance_us keeps_get_drv
  keeps_time_us_32 keeps_ms_since_boot keeps_pop_edge : keeps_db.

Ltac solve_keeps :=
  repeat first
    [ solve [auto with keeps_db]
    | refine (keeps_bind _ _ _ _); [| intros ]
    | progress (match goal with |- keeps (if ?b then _ else _) => destruct b end)
    | progress (match goal with |- keeps (match ?x with _ => _ end) => destruct x end) ].

Lemma keeps_wait_for_pin_state p st t : keeps (wait_for_pin_state p st t).
Proof. unfold wait_for_pin_state. solve_keeps. Qed.
#[export] Hint Resolve keeps_wait_for_pin_state : keeps_db.

Lemma keeps_send_start_signal p : keeps (dht22_send_start_signal p).
Proof.
  unfold dht22_send_start_signal, gpio_set_dir, gpio_put, sleep_us. solve_keeps.
Qed.
Lemma keeps_sleep_ms d : keeps (sleep_ms d).
Proof. unfold sleep_ms. solve_keeps. Qed.
Lemma keeps_wait_for_response p : keeps (dht22_wait_for_response p).
Proof. unfold dht22_wait_for_response. solve_keeps. Qed.
Lemma keeps_read_data_loop p i fuel data : keeps (dht22_read_data_loop p i fuel data).
Proof.
  revert i data. induction fuel as [|fuel IH]; intros i data; simpl; solve_keeps.
Qed.

(** Result codes of the protocol steps. *)

Lemma wait_for_pin_state_result p st t m :
  fst (wait_for_pin_state p st t m) = 0 \/ fst (wait_for_pin_state p st t m) = -1.
Proof.
  unfold wait_for_pin_state. rewrite bind_run, bind_run.
  destruct (fst (pop_edge _)); rewrite bind_run; simpl; auto.
Qed.

Lemma send_start_signal_result p m : fst (dht22_send_start_signal p m) = DHT22_OK.
Proof. reflexivity. Qed.

Lemma wait_for_response_result p m :
  fst (dht22_wait_for_response p m) = DHT22_OK \/
  fst (dht22_wait_for_response p m) = DHT22_ERROR_TIMEOUT.
Proof.
  unfold dht22_wait_for_response. rewrite bind_run.
  destruct (wait_for_pin_state_result p false DHT22_RESPONSE_WAIT_TIMEOUT m) as [E|E];
    rewrite E; simpl; auto.
  rewrite bind_run.
  destruct (wait_for_pin_state_result p true DHT22_RESPONSE_WAIT_TIMEOUT
              (snd (wait_for_pin_state p false DHT22_RESPONSE_WAIT_TIMEOUT m))) as [E'|E'];
    rewrite E'; simpl; auto.
  rewrite bind_run.
  match goal with |- context [wait_for_pin_state p false DHT22_RESPONSE_WAIT_TIMEOUT ?m2] =>
    destruct (wait_for_pin_state_result p false DHT22_RESPONSE_WAIT_TIMEOUT m2) as [E''|E'']
  end; rewrite E''; simpl; auto.
Qed.

Lemma read_data_loop_result p i fuel data m :
  fst (fst (dht22_read_data_loop p i fuel data m)) = DHT22_OK \/
  fst (fst (dht22_read_data_loop p i fuel data m)) = DHT22_ERROR_TIMEOUT.
Proof.
  revert i data m. induction fuel as [|fuel IH]; intros i data m; simpl; auto.
  rewrite bind_run.
  destruct (wait_for_pin_state_result p true DHT22_RESPONSE_WAIT_TIMEOUT m) as [E|E];
    rewrite E; simpl; auto.
  rewrite bind_run, bind_run.
  match goal with |- context [wait_for_pin_state p false DHT22_RESPONSE_WAIT_TIMEOUT ?m2] =>
    destruct (wait_for_pin_state_result p false DHT22_RESPONSE_WAIT_TIMEOUT m2) as [E'|E']
  end; rewrite E'; simpl; auto.
  rewrite bind_run. apply IH.
Qed.


(** ** Claims about the timestamp and the result slots *)

Lemma verify_checksum_result d :
  dht22_verify_checksum d = DHT22_OK \/ dht22_verify_checksum d = DHT22_ERROR_CHECKSUM.
Proof. unfold dht22_verify_checksum. destruct (negb _); auto. Qed.

Lemma convert_data_result d o :
  fst (dht22_convert_data d o) = DHT22_OK \/
  fst (dht22_convert_data d o) = DHT22_ERROR_INVALID_DATA.
Proof.
  unfold dht22_convert_data. destruct (negb _); destruct (_ || _); auto.
Qed.

(** The outcome of an initialised [dht22_read]: either a timeout with the
    driver state and the slots untouched, or a completed capture after
    which [last_read_time_ms] holds the millisecond time at the end of the
    capture (nothing later in the call advances the clock), pin and flag
    unchanged, and the result is a checksum error (slots untouched),
    [DHT22_OK] or [DHT22_ERROR_INVALID_DATA]. *)
Lemma dht22_read_outcome (m : machine) :
  initialized (drv m) = true ->
  let r := fst (dht22_read m) in
  let m' := snd (dht22_read m) in
  (r = DHT22_ERROR_TIMEOUT /\ drv m' = drv m /\ out m' = out m) \/
  (drv m' = mk_dht22_state (ms_of (now_us (hw m'))) (pin (drv m)) true /\
   ((r = DHT22_ERROR_CHECKSUM /\ out m' = out m) \/
    r = DHT22_OK \/ r = DHT22_ERROR_INVALID_DATA)).
Proof.
  intros Hinit r m'. subst r m'.
  unfold dht22_read. rewrite bind_get_drv, Hinit. cbn [negb].
  rewrite bind_ms_since_boot.
  match goal with |- context [bind (if ?b then ?x else ?y) _] =>
    set (P := if b then x else y);
    assert (HP : keeps P) by (subst P; destruct b; auto using keeps_sleep_ms, keeps_ret)
  end.
  rewrite (bind_run P). destruct (HP m) as [HPd HPo].
  set (m1 := snd (P m)) in *. clearbody m1. clear HP P.
  rewrite bind_get_drv, HPd.
  rewrite (bind_run (dht22_send_start_signal _)), send_start_signal_result, Z.eqb_refl.
  cbn [negb].
  destruct (keeps_send_start_signal (pin (drv m)) m1) as [H2d H2o].
  set (m2 := snd (dht22_send_start_signal (pin (drv m)) m1)) in *. clearbody m2.
  rewrite bind_get_drv, H2d, HPd.
  rewrite (bind_run (dht22_wait_for_response _)).
  destruct (keeps_wait_for_response (pin (drv m)) m2) as [H3d H3o].
  destruct (wait_for_response_result (pin (drv m)) m2) as [E3|E3]; rewrite E3;
  set (m3 := snd (dht22_wait_for_response (pin (drv m)) m2)) in *; clearbody m3.
  2:{ left. cbn [negb Z.eqb DHT22_ERROR_TIMEOUT DHT22_OK]. rewrite ret_run. cbn [fst snd].
      repeat split; congruence. }
  rewrite Z.eqb_refl. cbn [negb].
  rewrite bind_get_drv, H3d, H2d, HPd.
  rewrite (bind_run (dht22_read_data _ _)).
  unfold dht22_read_data.
  destruct (keeps_read_data_loop (pin (drv m)) 0 40 [0; 0; 0; 0; 0] m3) as [H4d H4o].
  destruct (read_data_loop_result (pin (drv m)) 0 40 [0; 0; 0; 0; 0] m3) as [E4|E4];
  destruct (dht22_read_data_loop (pin (drv m)) 0 40 [0; 0; 0; 0; 0] m3) as [[r4 d4] m4];
  cbn [fst snd] in E4, H4d, H4o |- *; subst r4.
  2:{ left. cbn [negb Z.eqb DHT22_ERROR_TIMEOUT DHT22_OK]. rewrite ret_run. cbn [fst snd].
      repeat split; congruence. }
  rewrite Z.eqb_refl. cbn [negb].
  rewrite bind_ms_since_boot, bind_get_drv, bind_put_drv, H4d, H3d, H2d, HPd, Hinit.
  destruct (verify_checksum_result d4) as [Ec|Ec]; rewrite Ec.
  - rewrite Z.eqb_refl. cbn [negb].
    rewrite bind_get_out. cbn [out].
    destruct (convert_data_result d4 (out m4)) as [Ev|Ev];
    destruct (dht22_convert_data d4 (out m4)) as [r5 o5]; cbn [fst] in Ev;
    rewrite bind_put_out, ret_run; cbn [fst snd drv out hw];
    right; split; auto.
  - cbn [negb Z.eqb DHT22_ERROR_CHECKSUM DHT22_OK]. rewrite ret_run. cbn [fst snd drv out hw].
    right. split; [reflexivity|]. left. split; [reflexivity|congruence].
Qed.

(** C2: for an initialised driver, a read that completes the handshake and
    the 40-bit capture (any result other than a timeout: [DHT22_OK],
    [DHT22_ERROR_CHECKSUM] or [DHT22_ERROR_INVALID_DATA]) sets
    [last_read_time_ms] to the millisecond time at the end of the capture,
    before (and whatever the outcome of) checksum and range validation;
    a read that times out in the handshake or in a bit leaves the driver
    state, and so [last_read_time_ms], unchanged. *)
Theorem dht22_read_timestamp (m : machine) :
  initialized (drv m) = true ->
  let r := fst (dht22_read m) in
  let m' := snd (dht22_read m) in
  ((r = DHT22_OK \/ r = DHT22_ERROR_CHECKSUM \/ r = DHT22_ERROR_INVALID_DATA) ->
     last_read_time_ms (drv m') = ms_of (now_us (hw m'))) /\
  (r = DHT22_ERROR_TIMEOUT -> last_read_time_ms (drv m') = last_read_time_ms (drv m)).
Proof.
  intros Hinit r m'.
  destruct (dht22_read_outcome m Hinit) as [[Hr [Hd _]] | [Hd Hr]]; fold r m' in Hr, Hd |- *.
  - split.
    + rewrite Hr. unfold DHT22_OK, DHT22_ERROR_TIMEOUT, DHT22_ERROR_CHECKSUM,
        DHT22_ERROR_INVALID_DATA. lia.
    + now rewrite Hd.
  - split.
    + now rewrite Hd.
    + intros E. rewrite E in Hr. unfold DHT22_OK, DHT22_ERROR_TIMEOUT, DHT22_ERROR_CHECKSUM,
        DHT22_ERROR_INVALID_DATA in Hr. lia.
Qed.

(** ** Capture of a frame from a responding sensor *)

Lemma pulse_length_eq (t l : Z) : uint32 (uint32 (t + l) - uint32 t) = uint32 l.
Proof.
  unfold uint32. rewrite Zminus_mod_idemp_l, Zminus_mod_idemp_r. f_equal. lia.
Qed.

Lemma read_data_loop_bits p ps : forall i rest data m,
  edge_oracle (hw m) = bits_oracle ps ++ rest ->
  fst (dht22_read_data_loop p i (length ps) data m)
    = (DHT22_OK, decode_pulses i (map pulse_of ps) data) /\
  drv (snd (dht22_read_data_loop p i (length ps) data m)) = drv m /\
  out (snd (dht22_read_data_loop p i (length ps) data m)) = out m /\
  edge_oracle (hw (snd (dht22_read_data_loop p i (length ps) data m))) = rest.
Proof.
  induction ps as [|[hi lo] ps IH]; intros i rest data m H.
  - simpl. auto.
  - cbn [length bits_oracle app] in H |- *. cbn [dht22_read_data_loop].
    rewrite (bind_run (wait_for_pin_state _ _ _)).
    rewrite (wait_for_pin_state_some _ _ _ _ _ _ H). cbn [fst snd].
    rewrite Z.eqb_refl. cbn [negb].
    rewrite bind_time_us_32. cbn [hw now_us].
    rewrite (bind_run (wait_for_pin_state _ _ _)).
    rewrite (wait_for_pin_state_some _ _ _ _ lo (bits_oracle ps ++ rest)) by reflexivity.
    cbn [fst snd]. rewrite Z.eqb_refl. cbn [negb].
    rewrite bind_time_us_32. cbn [hw now_us].
    rewrite pulse_length_eq.
    edestruct IH as (E1 & E2 & E3 & E4); [| rewrite E1, E2, E3, E4]; [reflexivity|].
    cbn [drv out map decode_pulses pulse_of snd]. auto.
Qed.

Lemma wait_for_response_ok p m h1 h2 h3 rest :
  edge_oracle (hw m) = Some h1 :: Some h2 :: Some h3 :: rest ->
  fst (dht22_wait_for_response p m) = DHT22_OK /\
  drv (snd (dht22_wait_for_response p m)) = drv m /\
  out (snd (dht22_wait_for_response p m)) = out m /\
  edge_oracle (hw (snd (dht22_wait_for_response p m))) = rest.
Proof.
  intros H. unfold dht22_wait_for_response.
  rewrite (bind_run (wait_for_pin_state _ _ _)), (wait_for_pin_state_some _ _ _ _ _ _ H).
  cbn [fst snd]. rewrite Z.eqb_refl. cbn [negb].
  rewrite (bind_run (wait_for_pin_state _ _ _)).
  rewrite (wait_for_pin_state_some _ _ _ _ h2 (Some h3 :: rest)) by reflexivity.
  cbn [fst snd]. rewrite Z.eqb_refl. cbn [negb].
  rewrite (bind_run (wait_for_pin_state _ _ _)).
  rewrite (wait_for_pin_state_some _ _ _ _ h3 rest) by reflexivity.
  cbn [fst snd]. rewrite Z.eqb_refl. cbn [negb]. rewrite ret_run. auto.
Qed.

(** An initialised read against a sensor that answers the handshake and
    sends the 40 pulses [ps]: the timestamp is taken, and the result and
    the slots are those of checksum verification and conversion of the
    captured frame. *)
Lemma dht22_read_captured (m : machine) h1 h2 h3 ps rest :
  initialized (drv m) = true ->
  length ps = 40%nat ->
  edge_oracle (hw m) = [Some h1; Some h2; Some h3] ++ bits_oracle ps ++ rest ->
  let d := captured_frame ps in
  drv (snd (dht22_read m)) =
    mk_dht22_state (ms_of (now_us (hw (snd (dht22_read m))))) (pin (drv m)) true /\
  (fst (dht22_read m), out (snd (dht22_read m))) =
    (if dht22_verify_checksum d =? DHT22_OK
     then dht22_convert_data d (out m)
     else (dht22_verify_checksum d, out m)).
Proof.
  intros Hinit Hlen Horc d.
  unfold dht22_read. rewrite bind_get_drv, Hinit. cbn [negb].
  rewrite bind_ms_since_boot.
  match goal with |- context [bind (if ?b then ?x else ?y) _] =>
    set (P := if b then x else y);
    assert (HP : keeps P) by (subst P; destruct b; auto using keeps_sleep_ms, keeps_ret);
    assert (HPe : edge_oracle (hw (snd (P m))) = edge_oracle (hw m))
      by (subst P; destruct b; reflexivity)
  end.
  rewrite (bind_run P). destruct (HP m) as [HPd HPo].
  set (m1 := snd (P m)) in *. clearbody m1. clear HP P.
  rewrite bind_get_drv, HPd.
  rewrite (bind_run (dht22_send_start_signal _)), send_start_signal_result, Z.eqb_refl.
  cbn [negb].
  destruct (keeps_send_start_signal (pin (drv m)) m1) as [H2d H2o].
  assert (H2e : edge_oracle (hw (snd (dht22_send_start_signal (pin (drv m)) m1)))
                = edge_oracle (hw m1)) by reflexivity.
  set (m2 := snd (dht22_send_start_signal (pin (drv m)) m1)) in *. clearbody m2.
  rewrite bind_get_drv, H2d, HPd.
  rewrite (bind_run (dht22_wait_for_response _)).
  destruct (wait_for_response_ok (pin (drv m)) m2 h1 h2 h3 (bits_oracle ps ++ rest))
    as (E3 & H3d & H3o & H3e); [rewrite H2e, HPe, Horc; reflexivity|].
  rewrite E3, Z.eqb_refl. cbn [negb].
  set (m3 := snd (dht22_wait_for_response (pin (drv m)) m2)) in *. clearbody m3.
  rewrite bind_get_drv, H3d, H2d, HPd.
  rewrite (bind_run (dht22_read_data _ _)).
  unfold dht22_read_data. rewrite <- Hlen.
  destruct (read_data_loop_bits (pin (drv m)) ps 0 rest [0; 0; 0; 0; 0] m3 H3e)
    as (E4 & H4d & H4o & _).
  rewrite E4. cbn [fst snd]. rewrite Z.eqb_refl. cbn [negb].
  fold (captured_frame ps) d.
  set (m4 := snd (dht22_read_data_loop (pin (drv m)) 0 (length ps) [0; 0; 0; 0; 0] m3)) in *.
  clearbody m4.
  rewrite bind_ms_since_boot, bind_get_drv, bind_put_drv, H4d, H3d, H2d, HPd, Hinit.
  destruct (verify_checksum_result d) as [Ec|Ec]; rewrite Ec.
  - rewrite Z.eqb_refl. cbn [negb].
    rewrite bind_get_out. cbn [out].
    replace (out m4) with (out m) by congruence.
    destruct (dht22_convert_data d (out m)) as [r5 o5].
    rewrite bind_put_out, ret_run. cbn [fst snd drv out hw].
    split; [reflexivity|]. congruence.
  - cbn [negb Z.eqb DHT22_ERROR_CHECKSUM DHT22_OK]. rewrite ret_run.
    cbn [fst snd drv out hw]. split; [reflexivity|]. congruence.
Qed.

(** ** Bit packing of [dht22_read_data] *)

Lemma length_update_nth k v l : length (update_nth k v l) = length l.
Proof. revert k. induction l as [|x l IH]; intros [|k]; simpl; auto. Qed.

Lemma nth_update_nth_eq k v l : (k < length l)%nat -> nth k (update_nth k v l) 0 = v.
Proof.
  revert k. induction l as [|x l IH]; intros [|k] H; simpl in *; try lia; auto.
  apply IH. lia.
Qed.

Lemma nth_update_nth_neq k k' v l : k <> k' -> nth k' (update_nth k v l) 0 = nth k' l 0.
Proof.
  revert k k'. induction l as [|x l IH]; intros [|k] [|k'] H; simpl; auto; try lia.
Qed.

Lemma length_set_bit data i : length (dht22_set_bit data i) = length data.
Proof. apply length_update_nth. Qed.

(** Setting bit [i] turns on exactly the bit of position [i] (bit
    [7 - i mod 8] of byte [i / 8]) and leaves the other 39 alone. *)
Lemma set_bit_bits data i j :
  length data = 5%nat -> (i < 40)%nat -> (j < 40)%nat ->
  Z.testbit (nth (j / 8) (dht22_set_bit data i) 0) (Z.of_nat (7 - j mod 8)) =
  Z.testbit (nth (j / 8) data 0) (Z.of_nat (7 - j mod 8)) || Nat.eqb j i.
Proof.
  intros Hlen Hi Hj. unfold dht22_set_bit.
  pose proof (Nat.div_mod_eq i 8). pose proof (Nat.div_mod_eq j 8).
  pose proof (Nat.mod_upper_bound i 8 ltac:(lia)).
  pose proof (Nat.mod_upper_bound j 8 ltac:(lia)).
  destruct (Nat.eq_dec (i / 8) (j / 8)) as [E|E].
  - rewrite <- E, nth_update_nth_eq by lia.
    rewrite Z.mod_pow2_bits_low by lia.
    rewrite Z.lor_spec, Z.shiftl_1_l, Z.pow2_bits_eqb by lia.
    f_equal.
    destruct (Nat.eqb_spec j i) as [->|Hne]; [apply Z.eqb_refl|].
    apply Z.eqb_neq. lia.
  - rewrite nth_update_nth_neq by exact E.
    destruct (Nat.eqb_spec j i) as [->|Hne]; [congruence|].
    now rewrite orb_false_r.
Qed.

Lemma decode_pulses_length ls : forall i data,
  length (decode_pulses i ls data) = length data.
Proof.
  induction ls as [|l ls IH]; intros i data; simpl; auto.
  rewrite IH. destruct (l >? DHT22_BIT_THRESHOLD); auto using length_set_bit.
Qed.

Lemma decode_pulses_bits ls : forall i data j,
  (i + length ls <= 40)%nat -> length data = 5%nat -> (j < 40)%nat ->
  Z.testbit (nth (j / 8) (decode_pulses i ls data) 0) (Z.of_nat (7 - j mod 8)) =
  Z.testbit (nth (j / 8) data 0) (Z.of_nat (7 - j mod 8))
  || (Nat.leb i j && Nat.ltb j (i + length ls) && (nth (j - i) ls 0 >? DHT22_BIT_THRESHOLD)).
Proof.
  induction ls as [|l ls IH]; intros i data j Hle Hlen Hj; simpl decode_pulses.
  - replace (nth (j - i) [] 0) with 0 by (destruct (j - i)%nat; reflexivity).
    replace (0 >? DHT22_BIT_THRESHOLD) with false by reflexivity.
    now rewrite andb_false_r, orb_false_r.
  - cbn [length] in Hle |- *. rewrite IH by (try destruct (l >? DHT22_BIT_THRESHOLD);
      try rewrite length_set_bit; lia).
    destruct (l >? DHT22_BIT_THRESHOLD) eqn:El.
    + rewrite set_bit_bits by (auto; lia).
      destruct (Nat.eqb_spec j i) as [->|Hne].
      * rewrite Nat.leb_refl, Nat.sub_diag. cbn [nth].
        replace (Nat.ltb i (i + S (length ls))) with true
          by (symmetry; apply Nat.ltb_lt; lia).
        rewrite El. destruct (Z.testbit _ _); reflexivity.
      * rewrite orb_false_r. f_equal.
        destruct (Nat.leb_spec (S i) j), (Nat.leb_spec i j); try lia; cbn [andb];
          first [ reflexivity
                | replace (j - i)%nat with (S (j - S i)) by lia;
                  replace (S i + length ls)%nat with (i + S (length ls))%nat by lia;
                  reflexivity ].
    + destruct (Nat.eqb_spec j i) as [->|Hne].
      * rewrite Nat.leb_refl, Nat.sub_diag. cbn [nth]. rewrite El.
        destruct (Nat.leb (S i) i) eqn:E'; [apply Nat.leb_le in E'; lia|].
        now rewrite !andb_false_r, !orb_false_r.
      * f_equal.
        destruct (Nat.leb_spec (S i) j), (Nat.leb_spec i j); try lia; cbn [andb];
          first [ reflexivity
                | replace (j - i)%nat with (S (j - S i)) by lia;
                  replace (S i + length ls)%nat with (i + S (length ls))%nat by lia;
                  reflexivity ].
Qed.

(** ** Checksum and conversion *)

Ltac codes :=
  unfold DHT22_OK, DHT22_ERROR_CHECKSUM, DHT22_ERROR_TIMEOUT, DHT22_ERROR_INVALID_DATA,
    DHT22_ERROR_NOT_INITIALIZED in *; lia.

Lemma verify_checksum_spec d :
  dht22_verify_checksum d = DHT22_ERROR_CHECKSUM <->
  nth 4 d 0 <> (nth 0 d 0 + nth 1 d 0 + nth 2 d 0 + nth 3 d 0) mod 256.
Proof.
  unfold dht22_verify_checksum. change (2 ^ 8) with 256.
  destruct (Z.eqb_spec ((nth 0 d 0 + nth 1 d 0 + nth 2 d 0 + nth 3 d 0) mod 256) (nth 4 d 0));
    cbn [negb]; split; intros; try intro; try codes; congruence.
Qed.

(** [(data[2] & 0x80) != 0] tests bit 7. *)
Lemma land_128_eqb x : (Z.land x 128 =? 0) = negb (Z.testbit x 7).
Proof.
  destruct (Z.testbit x 7) eqn:E; cbn [negb].
  - apply Z.eqb_neq. intros H.
    assert (Hb : Z.testbit (Z.land x 128) 7 = true)
      by (rewrite Z.land_spec, E; reflexivity).
    rewrite H in Hb. discriminate.
  - apply Z.eqb_eq. apply Z.bits_inj'. intros n Hn.
    rewrite Z.land_spec, Z.testbit_0_l. change 128 with (2 ^ 7).
    rewrite Z.pow2_bits_eqb by lia.
    destruct (Z.eqb_spec 7 n) as [<-|_]; [now rewrite E | apply andb_false_r].
Qed.

Lemma Qltb_spec x y : Qltb x y = true <-> (x < y)%Q.
Proof.
  unfold Qltb. rewrite negb_true_iff. split; intros H.
  - apply Qnot_le_lt. intros Hle. apply Qle_bool_iff in Hle. congruence.
  - destruct (Qle_bool y x) eqn:E; [|reflexivity].
    apply Qle_bool_iff in E. apply Qle_not_lt in E. contradiction.
Qed.

Lemma range_check_spec h t :
  (Qltb h 0 || Qltb 100 h || Qltb t (-40) || Qltb 80 t) = true <->
  (h < 0 \/ 100 < h \/ t < -40 \/ 80 < t)%Q.
Proof. rewrite !orb_true_iff, !Qltb_spec. tauto. Qed.

(** The result of [dht22_convert_data] is the range check on the values it
    has written. *)
Lemma convert_data_fst d o :
  fst (dht22_convert_data d o) =
  (if Qltb (humidity (snd (dht22_convert_data d o))) 0
      || Qltb 100 (humidity (snd (dht22_convert_data d o)))
      || Qltb (temperature (snd (dht22_convert_data d o))) (-40)
      || Qltb 80 (temperature (snd (dht22_convert_data d o)))
   then DHT22_ERROR_INVALID_DATA else DHT22_OK).
Proof.
  unfold dht22_convert_data. cbv zeta.
  destruct (negb _);
    match goal with
    | |- fst (if ?c then _ else _) = _ => destruct c eqn:E
    end; cbn [fst snd]; rewrite ?E; reflexivity.
Qed.

(** The values written by [dht22_convert_data] are those of the
    specification's formulas. *)
Lemma convert_data_values d o :
  humidity (snd (dht22_convert_data d o)) = spec_humidity d /\
  (temperature (snd (dht22_convert_data d o)) == spec_temperature d)%Q.
Proof.
  unfold dht22_convert_data, spec_temperature. cbv zeta. rewrite land_128_eqb.
  destruct (Z.testbit (nth 2 d 0) 7); cbn [negb];
    match goal with
    | |- context [if ?c then (DHT22_ERROR_INVALID_DATA, _) else _] => destruct c
    end; cbn [fst snd humidity temperature]; split; try reflexivity; ring.
Qed.

(** The caller's old values play no part in the conversion. *)
Lemma convert_data_out_irrelevant d o :
  dht22_convert_data d o = dht22_convert_data d (mk_slots 0 0).
Proof. reflexivity. Qed.

Lemma nth_zeros k : nth k [0; 0; 0; 0; 0] 0 = 0.
Proof. do 5 (destruct k as [|k]; [reflexivity|]). destruct k; reflexivity. Qed.

Lemma nth_map_pulse ps : forall i, nth i (map pulse_of ps) 0 = pulse_of (nth i ps (0%N, 0%N)).
Proof.
  induction ps as [|hl ps IH]; intros [|i]; cbn [map nth]; auto.
Qed.

(** ** Claims about initialisation and pacing *)

(** C8: a read on a driver that is not initialised returns
    [DHT22_ERROR_NOT_INITIALIZED], makes no hardware call and changes
    nothing: the machine (driver state, result slots, clock, log) is the
    same after the call. *)
Theorem dht22_read_not_initialized (m : machine) :
  initialized (drv m) = false ->
  dht22_read m = (DHT22_ERROR_NOT_INITIALIZED, m).
Proof.
  intros H. unfold dht22_read. rewrite bind_run. cbn [get_drv fst snd]. rewrite H. reflexivity.
Qed.

(** C9: for every pin, [dht22_init] returns [DHT22_OK], stores the pin,
    sets [last_read_time_ms] to 0 (the "never read" pacing state) and sets
    the initialised flag; it leaves the result slots alone. *)
Theorem dht22_init_spec (p : Z) (m : machine) :
  fst (dht22_init p m) = DHT22_OK /\
  drv (snd (dht22_init p m)) = mk_dht22_state 0 p true /\
  out (snd (dht22_init p m)) = out m.
Proof. repeat split. Qed.

Lemma dht22_read_log (m : machine) :
  initialized (drv m) = true ->
  let last := last_read_time_ms (drv m) in
  let elapsed := uint32 (ms_of (now_us (hw m)) - last) in
  exists rest, io_log (hw (snd (dht22_read m))) =
    io_log (hw m)
    ++ (if (elapsed <? DHT22_MIN_INTERVAL_MS) && negb (last =? 0)
        then [EvSleepMs (uint32 (DHT22_MIN_INTERVAL_MS - elapsed))] else [])
    ++ EvSetDir (pin (drv m)) GPIO_OUT :: rest.
Proof.
  intros Hinit last elapsed.
  unfold dht22_read. rewrite bind_run. cbn [get_drv fst snd]. rewrite Hinit. cbn [negb].
  rewrite bind_run. cbn [ms_since_boot fst snd]. fold last elapsed.
  destruct ((elapsed <? DHT22_MIN_INTERVAL_MS) && negb (last =? 0)).
  all: rewrite bind_run; rewrite bind_run;
    cbn -[uint32 ms_of DHT22_MIN_INTERVAL_MS DHT22_START_SIGNAL_DELAY
          dht22_wait_for_response dht22_read_data dht22_verify_checksum dht22_convert_data].
  all: match goal with
       | |- exists rest, io_log (hw (snd (?C ?m2))) = _ =>
           assert (HA : appends C) by solve_appends;
           destruct (HA m2) as [l Hl]; rewrite Hl
       end.
  all: cbn [hw io_log]; eexists; rewrite <- !app_assoc; reflexivity.
Qed.

(** The pacing gate of [dht22_read].  With [last] the stored
    timestamp and [elapsed] the unsigned 32-bit difference between the
    current millisecond time and [last]: if [last = 0] ("never read") or
    [elapsed >= 2000] the first hardware call is the start signal
    (driving the pin as output); otherwise the first call is
    [sleep_ms (2000 - elapsed)], immediately followed by the start signal. *)
Theorem dht22_read_pacing (m : machine) :
  initialized (drv m) = true ->
  let last := last_read_time_ms (drv m) in
  let elapsed := uint32 (ms_of (now_us (hw m)) - last) in
  let log' := io_log (hw (snd (dht22_read m))) in
  (last = 0 ->
     exists rest, log' = io_log (hw m) ++ EvSetDir (pin (drv m)) GPIO_OUT :: rest) /\
  (last <> 0 -> DHT22_MIN_INTERVAL_MS <= elapsed ->
     exists rest, log' = io_log (hw m) ++ EvSetDir (pin (drv m)) GPIO_OUT :: rest) /\
  (last <> 0 -> elapsed < DHT22_MIN_INTERVAL_MS ->
     exists rest, log' = io_log (hw m)
                         ++ EvSleepMs (DHT22_MIN_INTERVAL_MS - elapsed)
                         :: EvSetDir (pin (drv m)) GPIO_OUT :: rest).
Proof.
  intros Hinit last elapsed log'.
  destruct (dht22_read_log m Hinit) as [rest Hrest]. fold last elapsed in Hrest.
  subst log'. rewrite Hrest.
  assert (0 <= elapsed) by (apply Z.mod_pos_bound; lia).
  repeat split; intros Hl.
  - rewrite Hl. cbn [Z.eqb negb]. rewrite andb_false_r. now exists rest.
  - intros Hge. replace (elapsed <? DHT22_MIN_INTERVAL_MS) with false
      by (symmetry; apply Z.ltb_ge; lia).
    now exists rest.
  - intros Hlt. replace (elapsed <? DHT22_MIN_INTERVAL_MS) with true
      by (symmetry; apply Z.ltb_lt; lia).
    replace (last =? 0) with false by (symmetry; apply Z.eqb_neq; lia).
    exists rest. cbn [andb negb app]. unfold uint32 at 1.
    rewrite Z.mod_small by (unfold DHT22_MIN_INTERVAL_MS in *; lia). reflexivity.
Qed.

(** C7 (code bug): the code has no separate never-read state; it uses
    [last_read_time_ms = 0].  A read that gets past the capture when the
    32-bit millisecond clock reads 0 (every [2^32] ms, about 49.7 days)
    stores 0, and an immediate second read then sends its start signal
    without any sleep, although the previous read ended 0 ms earlier. *)
Theorem dht22_read_pacing_wraparound (m : machine) :
  initialized (drv m) = true ->
  fst (dht22_read m) <> DHT22_ERROR_TIMEOUT ->
  ms_of (now_us (hw (snd (dht22_read m)))) = 0 ->
  let m1 := snd (dht22_read m) in
  last_read_time_ms (drv m1) = 0 /\
  uint32 (ms_of (now_us (hw m1)) - last_read_time_ms (drv m1)) = 0 /\
  exists rest,
    io_log (hw (snd (dht22_read m1))) = io_log (hw m1) ++ EvSetDir (pin (drv m)) GPIO_OUT :: rest.
Proof.
  intros Hi Hnt Hz m1.
  destruct (dht22_read_outcome m Hi) as [[Hr _] | [Hd _]]; [contradiction|].
  fold m1 in Hd, Hz.
  rewrite Hd. cbn [last_read_time_ms pin]. rewrite Hz.
  split; [reflexivity | split; [reflexivity|]].
  destruct (dht22_read_log m1) as [rest Hrest]; [rewrite Hd; reflexivity|].
  exists rest. rewrite Hrest, Hd. cbn [last_read_time_ms pin]. rewrite Hz.
  rewrite andb_false_r. reflexivity.
Qed.


(** ** Claims about decoding, validation and conversion *)

(** C6: with the sensor sending the 40 high pulses [ps] (each bit: rising
    edge after [hi] us, line high for [lo] us), [dht22_read_data] succeeds
    and bit [7 - i mod 8] of byte [i / 8] is 1 exactly when the measured
    duration of the [i]-th pulse is strictly above the 50 us threshold;
    so a 28 us pulse gives 0, a 70 us pulse gives 1 and a pulse of exactly
    50 us gives 0. *)
Theorem dht22_read_data_bits (p : Z) (ps : list (N * N)) (rest : list (option N)) (m : machine) :
  length ps = 40%nat ->
  edge_oracle (hw m) = bits_oracle ps ++ rest ->
  let res := fst (dht22_read_data p [0; 0; 0; 0; 0] m) in
  fst res = DHT22_OK /\
  (forall i, (i < 40)%nat ->
     Z.testbit (nth (i / 8) (snd res) 0) (Z.of_nat (7 - i mod 8)) =
     (pulse_of (nth i ps (0%N, 0%N)) >? DHT22_BIT_THRESHOLD)) /\
  (forall i, (i < 40)%nat -> snd (nth i ps (0%N, 0%N)) = 28%N ->
     Z.testbit (nth (i / 8) (snd res) 0) (Z.of_nat (7 - i mod 8)) = false) /\
  (forall i, (i < 40)%nat -> snd (nth i ps (0%N, 0%N)) = 70%N ->
     Z.testbit (nth (i / 8) (snd res) 0) (Z.of_nat (7 - i mod 8)) = true) /\
  (forall i, (i < 40)%nat -> snd (nth i ps (0%N, 0%N)) = 50%N ->
     Z.testbit (nth (i / 8) (snd res) 0) (Z.of_nat (7 - i mod 8)) = false).
Proof.
  intros Hlen Horc res.
  assert (E : res = (DHT22_OK, captured_frame ps)).
  { subst res. unfold dht22_read_data. rewrite <- Hlen.
    destruct (read_data_loop_bits p ps 0 rest [0; 0; 0; 0; 0] m Horc) as [E _]. exact E. }
  rewrite E. cbn [fst snd].
  assert (Hb : forall i, (i < 40)%nat ->
     Z.testbit (nth (i / 8) (captured_frame ps) 0) (Z.of_nat (7 - i mod 8)) =
     (pulse_of (nth i ps (0%N, 0%N)) >? DHT22_BIT_THRESHOLD)).
  { intros i Hi. unfold captured_frame.
    rewrite decode_pulses_bits by (rewrite ?length_map; first [lia | reflexivity]).
    rewrite nth_zeros, Z.testbit_0_l, Nat.sub_0_r, length_map, Hlen. cbn [orb Nat.leb].
    replace (Nat.ltb i (0 + 40)) with true by (symmetry; apply Nat.ltb_lt; lia).
    cbn [andb]. now rewrite nth_map_pulse. }
  split; [reflexivity|]. split; [exact Hb|].
  repeat split; intros i Hi Hp; rewrite Hb by exact Hi; unfold pulse_of; rewrite Hp; reflexivity.
Qed.

(** C3: when a read of a frame captured from the line returns [DHT22_OK],
    the humidity slot holds [((byte0 << 8) | byte1) * 0.1] and the
    temperature slot the magnitude [(((byte2 & 0x7F) << 8) | byte3) * 0.1],
    negated exactly when bit 7 of byte2 is set; the frame
    [0x01 0x90 0x00 0xC8 0x59] reads as 40.0 %RH and 20.0 C with
    [DHT22_OK]. *)
Theorem dht22_read_conversion :
  (forall (m : machine) h1 h2 h3 ps rest,
     initialized (drv m) = true ->
     length ps = 40%nat ->
     edge_oracle (hw m) = [Some h1; Some h2; Some h3] ++ bits_oracle ps ++ rest ->
     fst (dht22_read m) = DHT22_OK ->
     (humidity (out (snd (dht22_read m))) == spec_humidity (captured_frame ps))%Q /\
     (temperature (out (snd (dht22_read m))) == spec_temperature (captured_frame ps))%Q) /\
  (forall (m : machine) rest,
     initialized (drv m) = true ->
     edge_oracle (hw m) = frame_oracle [1; 144; 0; 200; 89] ++ rest ->
     fst (dht22_read m) = DHT22_OK /\
     (humidity (out (snd (dht22_read m))) == 40)%Q /\
     (temperature (out (snd (dht22_read m))) == 20)%Q).
Proof.
  split.
  - intros m h1 h2 h3 ps rest Hi Hl Ho Hok.
    destruct (dht22_read_captured m h1 h2 h3 ps rest Hi Hl Ho) as [_ E].
    set (d := captured_frame ps) in *.
    destruct (verify_checksum_result d) as [Ec|Ec]; rewrite Ec in E.
    + rewrite Z.eqb_refl in E.
      assert (Eo : out (snd (dht22_read m)) = snd (dht22_convert_data d (out m)))
        by (rewrite <- E; reflexivity).
      destruct (convert_data_values d (out m)) as [Hh Ht].
      rewrite Eo, Hh. split; [reflexivity | exact Ht].
    + cbn [Z.eqb DHT22_ERROR_CHECKSUM DHT22_OK] in E.
      assert (Ef : fst (dht22_read m) = DHT22_ERROR_CHECKSUM)
        by exact (f_equal fst E).
      exfalso. codes.
  - intros m rest Hi Ho.
    set (ps := flat_map byte_pulses [1; 144; 0; 200; 89]).
    destruct (dht22_read_captured m 80%N 80%N 80%N ps rest Hi) as [_ E];
      [reflexivity | rewrite Ho; reflexivity |].
    replace (captured_frame ps) with [1; 144; 0; 200; 89] in E by (vm_compute; reflexivity).
    replace (dht22_verify_checksum [1; 144; 0; 200; 89] =? DHT22_OK) with true in E
      by reflexivity.
    rewrite convert_data_out_irrelevant in E.
    replace (dht22_convert_data [1; 144; 0; 200; 89] (mk_slots 0 0))
      with (DHT22_OK, mk_slots (200 # 10) (400 # 10)) in E by (vm_compute; reflexivity).
    injection E as E1 E2. rewrite E1, E2. cbn [humidity temperature].
    split; [reflexivity | split; vm_compute; reflexivity].
Qed.

(** C4: for a frame captured from the line, [dht22_read] returns
    [DHT22_ERROR_CHECKSUM] exactly when byte4 differs from
    [(byte0 + byte1 + byte2 + byte3) mod 256], and then the conversion is
    not run: the result slots keep their values. *)
Theorem dht22_read_checksum (m : machine) h1 h2 h3 ps rest :
  initialized (drv m) = true ->
  length ps = 40%nat ->
  edge_oracle (hw m) = [Some h1; Some h2; Some h3] ++ bits_oracle ps ++ rest ->
  let d := captured_frame ps in
  (fst (dht22_read m) = DHT22_ERROR_CHECKSUM <->
   nth 4 d 0 <> (nth 0 d 0 + nth 1 d 0 + nth 2 d 0 + nth 3 d 0) mod 256) /\
  (fst (dht22_read m) = DHT22_ERROR_CHECKSUM -> out (snd (dht22_read m)) = out m).
Proof.
  intros Hi Hl Ho d.
  destruct (dht22_read_captured m h1 h2 h3 ps rest Hi Hl Ho) as [_ E].
  change (captured_frame ps) with d in E.
  pose proof (verify_checksum_spec d) as Hs.
  destruct (verify_checksum_result d) as [Ec|Ec]; rewrite Ec in E, Hs.
  - rewrite Z.eqb_refl in E.
    assert (Ef : fst (dht22_read m) = fst (dht22_convert_data d (out m)))
      by (rewrite <- E; reflexivity).
    assert (Hn : fst (dht22_read m) <> DHT22_ERROR_CHECKSUM)
      by (rewrite Ef; destruct (convert_data_result d (out m)) as [X|X]; rewrite X; codes).
    split; [|intros; contradiction].
    split; intros H; [contradiction|]. exfalso. apply Hs in H. codes.
  - cbn [Z.eqb DHT22_ERROR_CHECKSUM DHT22_OK] in E. injection E as E1 E2.
    split; [|intros; exact E2].
    rewrite <- Hs, E1. tauto.
Qed.

(** C5: for a checksum-valid frame captured from the line, [dht22_read]
    returns [DHT22_ERROR_INVALID_DATA] when the converted humidity is
    outside [[0, 100]] or the converted temperature outside [[-40, 80]],
    and [DHT22_OK] when both lie inside their ranges. *)
Theorem dht22_read_range (m : machine) h1 h2 h3 ps rest :
  initialized (drv m) = true ->
  length ps = 40%nat ->
  edge_oracle (hw m) = [Some h1; Some h2; Some h3] ++ bits_oracle ps ++ rest ->
  let d := captured_frame ps in
  nth 4 d 0 = (nth 0 d 0 + nth 1 d 0 + nth 2 d 0 + nth 3 d 0) mod 256 ->
  ((spec_humidity d < 0 \/ 100 < spec_humidity d \/
    spec_temperature d < -40 \/ 80 < spec_temperature d)%Q ->
     fst (dht22_read m) = DHT22_ERROR_INVALID_DATA) /\
  ((0 <= spec_humidity d /\ spec_humidity d <= 100 /\
    -40 <= spec_temperature d /\ spec_temperature d <= 80)%Q ->
     fst (dht22_read m) = DHT22_OK).
Proof.
  intros Hi Hl Ho d Hck.
  destruct (dht22_read_captured m h1 h2 h3 ps rest Hi Hl Ho) as [_ E].
  change (captured_frame ps) with d in E.
  assert (Ev : dht22_verify_checksum d = DHT22_OK).
  { destruct (verify_checksum_result d) as [Ec|Ec]; [exact Ec|].
    apply verify_checksum_spec in Ec. contradiction. }
  rewrite Ev, Z.eqb_refl in E.
  assert (Ef : fst (dht22_read m) = fst (dht22_convert_data d (out m)))
    by (rewrite <- E; reflexivity).
  rewrite Ef, convert_data_fst.
  destruct (convert_data_values d (out m)) as [Hh Ht].
  set (o' := snd (dht22_convert_data d (out m))) in *.
  split.
  - intros Hbad.
    assert (C : (Qltb (humidity o') 0 || Qltb 100 (humidity o')
                 || Qltb (temperature o') (-40) || Qltb 80 (temperature o')) = true)
      by (apply range_check_spec; rewrite Hh, Ht; exact Hbad).
    rewrite C. reflexivity.
  - intros (H1 & H2 & H3 & H4).
    destruct (_ || _) eqn:C; [|reflexivity]. exfalso.
    apply range_check_spec in C. rewrite Hh, Ht in C.
    destruct C as [C|[C|[C|C]]];
      [ exact (Qle_not_lt _ _ H1 C) | exact (Qle_not_lt _ _ H2 C)
      | exact (Qle_not_lt _ _ H3 C) | exact (Qle_not_lt _ _ H4 C) ].
Qed.

(** C10: whatever the bytes of the frame, the humidity written by
    [dht22_convert_data] is nonnegative, so its [humidity < 0] test is
    always false. *)
Theorem dht22_convert_humidity_nonneg (data : list Z) (o : slots) :
  Forall (fun b => 0 <= b < 256) data ->
  (0 <= humidity (snd (dht22_convert_data data o)))%Q /\
  Qltb (humidity (snd (dht22_convert_data data o))) 0 = false.
Proof.
  intros Hd.
  assert (Hn : forall k, 0 <= nth k data 0).
  { intros k. destruct (nth_in_or_default k data 0) as [Hin| ->]; [|lia].
    rewrite Forall_forall in Hd. apply Hd in Hin. lia. }
  assert (H0 : (0 <= humidity (snd (dht22_convert_data data o)))%Q).
  { destruct (convert_data_values data o) as [Hh _]. rewrite Hh. unfold spec_humidity.
    apply Qmult_le_0_compat; [|discriminate].
    change 0%Q with (inject_Z 0). rewrite <- Zle_Qle.
    apply Z.lor_nonneg. split; [apply Z.shiftl_nonneg|]; apply Hn. }
  split; [exact H0|].
  unfold Qltb. apply negb_false_iff. apply Qle_bool_iff. exact H0.
Qed.

(** C1: the slots are written before the range check.  A sensor sending
    [0x03 0xE9 0x00 0xC8 0xB4] (checksum right, 100.1 %RH) makes
    [dht22_read] return [DHT22_ERROR_INVALID_DATA] with the slots changed
    from 0 and 0 to 20.0 C and 100.1 %RH. *)
Theorem dht22_read_invalid_overwrites_slots :
  fst (dht22_read m_humid_frame) = DHT22_ERROR_INVALID_DATA /\
  out (snd (dht22_read m_humid_frame)) <> out m_humid_frame /\
  (humidity (out (snd (dht22_read m_humid_frame))) == 1001 # 10)%Q /\
  (temperature (out (snd (dht22_read m_humid_frame))) == 20)%Q.
Proof.
  split; [vm_compute; reflexivity|].
  split; [|split; vm_compute; reflexivity].
  intros H. apply (f_equal (fun o => Qnum (humidity o))) in H.
  vm_compute in H. discriminate H.
Qed.

(** ** The claims at concrete inputs *)

Lemma dht22_read_not_initialized_witness :
  initialized (drv m_uninitialized) = false /\
  dht22_read m_uninitialized = (DHT22_ERROR_NOT_INITIALIZED, m_uninitialized).
Proof.
  split; [reflexivity|]. apply dht22_read_not_initialized. reflexivity.
Defined.

Lemma dht22_read_timestamp_witness :
  fst (dht22_read m_bad_checksum_frame) = DHT22_ERROR_CHECKSUM /\
  ((fst (dht22_read m_bad_checksum_frame) = DHT22_OK \/
    fst (dht22_read m_bad_checksum_frame) = DHT22_ERROR_CHECKSUM \/
    fst (dht22_read m_bad_checksum_frame) = DHT22_ERROR_INVALID_DATA) ->
   last_read_time_ms (drv (snd (dht22_read m_bad_checksum_frame))) =
   ms_of (now_us (hw (snd (dht22_read m_bad_checksum_frame))))) /\
  (fst (dht22_read m_bad_checksum_frame) = DHT22_ERROR_TIMEOUT ->
   last_read_time_ms (drv (snd (dht22_read m_bad_checksum_frame))) =
   last_read_time_ms (drv m_bad_checksum_frame)).
Proof.
  split; [vm_compute; reflexivity|].
  apply dht22_read_timestamp. reflexivity.
Defined.

Lemma dht22_read_pacing_witness :
  exists rest,
    io_log (hw (snd (dht22_read m_recently_read))) =
    io_log (hw m_recently_read)
    ++ EvSleepMs (DHT22_MIN_INTERVAL_MS
                  - uint32 (ms_of (now_us (hw m_recently_read))
                            - last_read_time_ms (drv m_recently_read)))
    :: EvSetDir (pin (drv m_recently_read)) GPIO_OUT :: rest.
Proof.
  destruct (dht22_read_pacing m_recently_read) as (_ & _ & H3); [reflexivity|].
  apply H3; vm_compute; [discriminate | reflexivity].
Defined.

Lemma dht22_read_pacing_wraparound_witness :
  let m1 := snd (dht22_read m_wrap) in
  last_read_time_ms (drv m1) = 0 /\
  uint32 (ms_of (now_us (hw m1)) - last_read_time_ms (drv m1)) = 0 /\
  exists rest,
    io_log (hw (snd (dht22_read m1))) = io_log (hw m1) ++ EvSetDir (pin (drv m_wrap)) GPIO_OUT :: rest.
Proof.
  apply (dht22_read_pacing_wraparound m_wrap); vm_compute; [reflexivity | discriminate | reflexivity].
Defined.


Lemma dht22_read_data_bits_witness :
  let ps := flat_map byte_pulses [1; 144; 0; 200; 89] in
  let res := fst (dht22_read_data 2 [0; 0; 0; 0; 0] m_bits) in
  fst res = DHT22_OK /\
  (forall i, (i < 40)%nat ->
     Z.testbit (nth (i / 8) (snd res) 0) (Z.of_nat (7 - i mod 8)) =
     (pulse_of (nth i ps (0%N, 0%N)) >? DHT22_BIT_THRESHOLD)).
Proof.
  intros ps res.
  destruct (dht22_read_data_bits 2 ps [] m_bits) as (H1 & H2 & _);
    [vm_compute; reflexivity | vm_compute; reflexivity |].
  split; [exact H1 | exact H2].
Defined.

Lemma dht22_read_conversion_witness :
  let ps := flat_map byte_pulses [1; 144; 0; 200; 89] in
  ((humidity (out (snd (dht22_read m_good_frame))) == spec_humidity (captured_frame ps))%Q /\
   (temperature (out (snd (dht22_read m_good_frame))) == spec_temperature (captured_frame ps))%Q) /\
  (fst (dht22_read m_good_frame) = DHT22_OK /\
   (humidity (out (snd (dht22_read m_good_frame))) == 40)%Q /\
   (temperature (out (snd (dht22_read m_good_frame))) == 20)%Q).
Proof.
  intros ps. split.
  - apply (proj1 dht22_read_conversion m_good_frame 80%N 80%N 80%N ps []);
      vm_compute; reflexivity.
  - apply (proj2 dht22_read_conversion m_good_frame []); vm_compute; reflexivity.
Defined.

Lemma dht22_read_checksum_witness :
  let d := captured_frame (flat_map byte_pulses [2; 140; 128; 50; 255]) in
  (fst (dht22_read m_bad_checksum_frame) = DHT22_ERROR_CHECKSUM <->
   nth 4 d 0 <> (nth 0 d 0 + nth 1 d 0 + nth 2 d 0 + nth 3 d 0) mod 256) /\
  (fst (dht22_read m_bad_checksum_frame) = DHT22_ERROR_CHECKSUM ->
   out (snd (dht22_read m_bad_checksum_frame)) = out m_bad_checksum_frame).
Proof.
  apply (dht22_read_checksum m_bad_checksum_frame 80%N 80%N 80%N
           (flat_map byte_pulses [2; 140; 128; 50; 255]) []);
    vm_compute; reflexivity.
Defined.

Lemma dht22_read_range_witness :
  fst (dht22_read m_humid_frame) = DHT22_ERROR_INVALID_DATA /\
  fst (dht22_read m_good_frame) = DHT22_OK.
Proof.
  split.
  - apply (dht22_read_range m_humid_frame 80%N 80%N 80%N
             (flat_map byte_pulses [3; 233; 0; 200; 180]) []);
      [vm_compute; reflexivity .. |].
    right; left. vm_compute. reflexivity.
  - apply (dht22_read_range m_good_frame 80%N 80%N 80%N
             (flat_map byte_pulses [1; 144; 0; 200; 89]) []);
      [vm_compute; reflexivity .. |].
    repeat split; vm_compute; discriminate.
Defined.

Lemma dht22_convert_humidity_nonneg_witness :
  Qle 0 (humidity (snd (dht22_convert_data [3; 233; 0; 200; 180] (mk_slots 0 0)))) /\
  Qltb (humidity (snd (dht22_convert_data [3; 233; 0; 200; 180] (mk_slots 0 0)))) 0 = false.
Proof.
  apply dht22_convert_humidity_nonneg. repeat constructor; lia.
Defined.

(** * Further properties of the driver and of its caller *)

(** ** Helpers *)

Lemma read_uninit_run (m : machine) :
  initialized (drv m) = false -> dht22_read m = (DHT22_ERROR_NOT_INITIALIZED, m).
Proof. intros H. unfold dht22_read. rewrite bind_get_drv, H. reflexivity. Qed.

Lemma wait_for_pin_state_none p st t m rest :
  edge_oracle (hw m) = None :: rest -> fst (wait_for_pin_state p st t m) = -1.
Proof. destruct m as [s o [now orc lg]]. cbn. intros ->. reflexivity. Qed.

Lemma read_data_loop_timeout p rest : forall fuel pre i data m,
  edge_oracle (hw m) = map Some pre ++ None :: rest ->
  (length pre < 2 * fuel)%nat ->
  fst (fst (dht22_read_data_loop p i fuel data m)) = DHT22_ERROR_TIMEOUT.
Proof.
  induction fuel as [|fuel IH]; intros pre i data m H Hl; [cbn in Hl; lia|].
  cbn [dht22_read_data_loop]. rewrite (bind_run (wait_for_pin_state _ _ _)).
  destruct pre as [|a [|b pre]]; cbn [map app] in H.
  - rewrite (wait_for_pin_state_none _ _ _ _ _ H). reflexivity.
  - rewrite (wait_for_pin_state_some _ _ _ _ _ _ H). cbn [fst snd].
    rewrite Z.eqb_refl. cbn [negb].
    rewrite bind_time_us_32, (bind_run (wait_for_pin_state _ _ _)).
    rewrite (wait_for_pin_state_none _ _ _ _ rest) by reflexivity. reflexivity.
  - rewrite (wait_for_pin_state_some _ _ _ _ _ _ H). cbn [fst snd].
    rewrite Z.eqb_refl. cbn [negb].
    rewrite bind_time_us_32, (bind_run (wait_for_pin_state _ _ _)).
    rewrite (wait_for_pin_state_some _ _ _ _ b (map Some pre ++ None :: rest)) by reflexivity.
    cbn [fst snd]. rewrite Z.eqb_refl. cbn [negb].
    rewrite bind_time_us_32. cbn [hw now_us].
    eapply (IH pre); [reflexivity | cbn [length] in Hl; lia].
Qed.

Lemma wait_for_response_timeout p m pre rest :
  edge_oracle (hw m) = map Some pre ++ None :: rest ->
  (length pre < 3)%nat ->
  fst (dht22_wait_for_response p m) = DHT22_ERROR_TIMEOUT.
Proof.
  intros H Hl. unfold dht22_wait_for_response.
  rewrite (bind_run (wait_for_pin_state _ _ _)).
  destruct pre as [|a pre]; cbn [map app] in H.
  { rewrite (wait_for_pin_state_none _ _ _ _ _ H). reflexivity. }
  rewrite (wait_for_pin_state_some _ _ _ _ _ _ H). cbn [fst snd].
  rewrite Z.eqb_refl. cbn [negb]. rewrite (bind_run (wait_for_pin_state _ _ _)).
  destruct pre as [|b pre]; cbn [map app].
  { rewrite (wait_for_pin_state_none _ _ _ _ rest) by reflexivity. reflexivity. }
  rewrite (wait_for_pin_state_some _ _ _ _ b (map Some pre ++ None :: rest)) by reflexivity.
  cbn [fst snd]. rewrite Z.eqb_refl. cbn [negb]. rewrite (bind_run (wait_for_pin_state _ _ _)).
  destruct pre as [|c pre]; cbn [map app]; [|cbn [length] in Hl; lia].
  rewrite (wait_for_pin_state_none _ _ _ _ rest) by reflexivity. reflexivity.
Qed.

(** An initialised read whose line stops answering at one of its 83
    waits returns [DHT22_ERROR_TIMEOUT]. *)
Lemma dht22_read_timeout_result (m : machine) pre rest :
  initialized (drv m) = true ->
  edge_oracle (hw m) = map Some pre ++ None :: rest ->
  (length pre < 83)%nat ->
  fst (dht22_read m) = DHT22_ERROR_TIMEOUT.
Proof.
  intros Hinit Horc Hl.
  unfold dht22_read. rewrite bind_get_drv, Hinit. cbn [negb].
  rewrite bind_ms_since_boot.
  match goal with |- context [bind (if ?b then ?x else ?y) _] =>
    set (P := if b then x else y);
    assert (HP : keeps P) by (subst P; destruct b; auto using keeps_sleep_ms, keeps_ret);
    assert (HPe : edge_oracle (hw (snd (P m))) = edge_oracle (hw m))
      by (subst P; destruct b; reflexivity)
  end.
  rewrite (bind_run P). destruct (HP m) as [HPd HPo].
  set (m1 := snd (P m)) in *. clearbody m1. clear HP P.
  rewrite bind_get_drv, HPd.
  rewrite (bind_run (dht22_send_start_signal _)), send_start_signal_result, Z.eqb_refl.
  cbn [negb].
  destruct (keeps_send_start_signal (pin (drv m)) m1) as [H2d H2o].
  assert (H2e : edge_oracle (hw (snd (dht22_send_start_signal (pin (drv m)) m1)))
                = edge_oracle (hw m1)) by reflexivity.
  set (m2 := snd (dht22_send_start_signal (pin (drv m)) m1)) in *. clearbody m2.
  rewrite bind_get_drv, H2d, HPd.
  rewrite (bind_run (dht22_wait_for_response _)).
  destruct (Nat.lt_ge_cases (length pre) 3) as [Hs|Hs].
  - rewrite (wait_for_response_timeout _ _ pre rest) by (try rewrite H2e, HPe; assumption).
    reflexivity.
  - destruct pre as [|h1 [|h2 [|h3 pre]]]; cbn [length] in Hs, Hl; try lia.
    destruct (wait_for_response_ok (pin (drv m)) m2 h1 h2 h3 (map Some pre ++ None :: rest))
      as (E3 & H3d & H3o & H3e); [rewrite H2e, HPe, Horc; reflexivity|].
    rewrite E3, Z.eqb_refl. cbn [negb].
    set (m3 := snd (dht22_wait_for_response (pin (drv m)) m2)) in *. clearbody m3.
    rewrite bind_get_drv, H3d, H2d, HPd.
    rewrite (bind_run (dht22_read_data _ _)).
    unfold dht22_read_data.
    pose proof (read_data_loop_timeout (pin (drv m)) rest 40 pre 0 [0; 0; 0; 0; 0] m3 H3e
                  ltac:(lia)) as E4.
    destruct (dht22_read_data_loop (pin (drv m)) 0 40 [0; 0; 0; 0; 0] m3) as [[r4 d4] m4].
    cbn [fst snd] in E4 |- *. subst r4. reflexivity.
Qed.

Lemma decode_pulses_short ls : forall i data,
  forallb (fun l => l <=? DHT22_BIT_THRESHOLD) ls = true -> decode_pulses i ls data = data.
Proof.
  induction ls as [|l ls IH]; intros i data H; [reflexivity|].
  cbn [forallb] in H. apply andb_true_iff in H as [H1 H2]. cbn [decode_pulses].
  replace (l >? DHT22_BIT_THRESHOLD) with false
    by (symmetry; apply Z.leb_le in H1; rewrite Z.gtb_ltb; apply Z.ltb_ge; exact H1).
  apply IH. exact H2.
Qed.

Lemma forallb_map_pulse ps :
  forallb (fun hl => pulse_of hl <=? DHT22_BIT_THRESHOLD) ps = true ->
  forallb (fun l => l <=? DHT22_BIT_THRESHOLD) (map pulse_of ps) = true.
Proof. induction ps as [|hl ps IH]; cbn; auto. rewrite !andb_true_iff. tauto. Qed.

(** The caller's view of the driver *)

Lemma temperature_monitoring_cases (s : app_state) :
  let r := fst (dht22_read (mach s)) in
  let s' := temperature_monitoring s in
  mach s' = snd (dht22_read (mach s)) /\
  temperature_result s' = r /\
  adc_next s' = adc_next s /\ adc_count s' = adc_count s /\
  (r = DHT22_OK -> servo_triggered s' = Qltb 30 (temperature (out (mach s')))) /\
  (servo_triggered s' = servo_triggered s /\ app_log s' = app_log s \/
   servo_triggered s' = true /\ app_log s' = app_log s ++ [AppPwmSetGpioLevel SERVO_PIN 2400] \/
   servo_triggered s' = false /\ app_log s' = app_log s ++ [AppPwmSetGpioLevel SERVO_PIN 600]) /\
  (r <> DHT22_OK -> servo_triggered s' = servo_triggered s /\ app_log s' = app_log s).
Proof.
  intros r s'. subst r s'.
  unfold temperature_monitoring, run_driver, is_high_temperature, toggle_servo, app_emit,
    with_mach, with_temperature_result, with_servo_triggered.
  destruct (dht22_read (mach s)) as [r m'].
  destruct s as [m0 st tr lv mv an ac lg]. cbn [fst snd mach servo_triggered app_log].
  destruct (r =? DHT22_OK) eqn:Er; [apply Z.eqb_eq in Er | apply Z.eqb_neq in Er].
  - destruct (Qltb 30 (temperature (out m'))) eqn:Eh, st; cbn;
      repeat split; auto; try contradiction.
  - cbn. repeat split; auto; congruence.
Qed.

Lemma last_servo_level_snoc l e :
  last_servo_level (l ++ [e]) =
  match e with
  | AppPwmSetGpioLevel g v => if g =? SERVO_PIN then Some v else last_servo_level l
  | _ => last_servo_level l
  end.
Proof. unfold last_servo_level. rewrite fold_left_app. reflexivity. Qed.

Lemma last_put_snoc p l e :
  last_put p (l ++ [e]) =
  match e with
  | AppGpioPut g v => if g =? p then Some v else last_put p l
  | _ => last_put p l
  end.
Proof. unfold last_put. rewrite fold_left_app. reflexivity. Qed.

(** [main]'s [servo_triggered] says where the servo was last sent. *)
Definition servo_matches (s : app_state) : Prop :=
  if servo_triggered s then last_servo_level (app_log s) = Some 2400
  else last_servo_level (app_log s) = None \/ last_servo_level (app_log s) = Some 600.

Lemma servo_matches_temperature_monitoring s :
  servo_matches s -> servo_matches (temperature_monitoring s).
Proof.
  unfold servo_matches. intros H.
  destruct (temperature_monitoring_cases s) as (_ & _ & _ & _ & _ & Hc & _).
  destruct Hc as [[-> ->] | [[-> ->] | [-> ->]]]; [exact H | |];
    rewrite last_servo_level_snoc; cbn; auto.
Qed.

Lemma main_loop_body_log s :
  let t := temperature_monitoring s in
  let v1 := adc_next s (adc_count s) in
  let v2 := adc_next s (S (adc_count s)) in
  app_log (main_loop_body s) =
    app_log t ++ [AppAdcSelectInput (LDR_PIN - 26);
                  AppGpioPut RED_LED_PIN (if v1 >? LDR_THRESHOLD then 1 else 0);
                  AppAdcSelectInput MQ2_ADC_CHANNEL;
                  AppGpioPut RELE_PIN (if v2 >? 2000 then 1 else 0)] /\
  servo_triggered (main_loop_body s) = servo_triggered t /\
  mach (main_loop_body s) = mach t /\
  ldr_value (main_loop_body s) = v1 /\ mq2_value (main_loop_body s) = v2.
Proof.
  intros t v1 v2.
  destruct (temperature_monitoring_cases s) as (_ & _ & Ha & Hc & _).
  fold t in Ha, Hc. subst v1 v2. rewrite <- Ha, <- Hc.
  unfold main_loop_body. fold t. clearbody t.
  destruct t as [m0 st tr lv mv an ac lg].
  cbn [adc_next adc_count app_log].
  unfold mq2_monitoring, ldr_monitoring.
  cbn [adc_read app_emit with_ldr_value with_mq2_value adc_next adc_count app_log mach servo_triggered
       turn_on_red_led turn_off_red_led ldr_value mq2_value temperature_result].
  destruct (an ac >? LDR_THRESHOLD);
    cbn [adc_read app_emit with_ldr_value with_mq2_value adc_next adc_count app_log mach servo_triggered
       turn_on_red_led turn_off_red_led ldr_value mq2_value temperature_result];
    destruct (an (S ac) >? 2000);
    cbn [adc_read app_emit with_ldr_value with_mq2_value adc_next adc_count app_log mach servo_triggered
       turn_on_red_led turn_off_red_led ldr_value mq2_value temperature_result];
    rewrite <- !app_assoc; repeat split.
Qed.

Lemma servo_matches_main_loop_body s :
  servo_matches s -> servo_matches (main_loop_body s).
Proof.
  intros H. apply servo_matches_temperature_monitoring in H. revert H.
  unfold servo_matches. destruct (main_loop_body_log s) as (Hl & Ht & _).
  rewrite Hl, Ht. unfold last_servo_level. rewrite fold_left_app. cbn [fold_left]. auto.
Qed.

Lemma servo_matches_main_loop n : forall s, servo_matches s -> servo_matches (main_loop n s).
Proof.
  induction n as [|n IH]; intros s H; [exact H|].
  cbn [main_loop]. apply IH, servo_matches_main_loop_body, H.
Qed.

Lemma setup_mach (s : app_state) : mach (setup s) = snd (dht22_init DHT22_PIN (mach s)).
Proof. reflexivity. Qed.

Lemma setup_servo (m : machine) samples :
  servo_matches (setup (with_servo_triggered false (app_at_boot m samples))).
Proof. unfold servo_matches. cbn. auto. Qed.

(** ** Extra properties of dht22.c *)

(** [dht22_read] only ever returns one of the five codes of dht22.h, and
    an initialised driver never answers [DHT22_ERROR_NOT_INITIALIZED]. *)
Theorem dht22_read_result_codes (m : machine) :
  let r := fst (dht22_read m) in
  (r = DHT22_OK \/ r = DHT22_ERROR_CHECKSUM \/ r = DHT22_ERROR_TIMEOUT \/
   r = DHT22_ERROR_INVALID_DATA \/ r = DHT22_ERROR_NOT_INITIALIZED) /\
  (initialized (drv m) = true -> r <> DHT22_ERROR_NOT_INITIALIZED).
Proof.
  intros r. subst r. destruct (initialized (drv m)) eqn:Hi.
  - destruct (dht22_read_outcome m Hi) as [[Hr _] | [_ [[Hr _] | [Hr|Hr]]]];
      rewrite Hr; split; try intros _; codes.
  - rewrite (read_uninit_run m Hi). cbn [fst]. split; [codes | discriminate].
Qed.

(** No call of [dht22_read] changes the stored pin or the initialised flag. *)
Theorem dht22_read_keeps_pin_and_flag (m : machine) :
  pin (drv (snd (dht22_read m))) = pin (drv m) /\
  initialized (drv (snd (dht22_read m))) = initialized (drv m).
Proof.
  destruct (initialized (drv m)) eqn:Hi.
  - destruct (dht22_read_outcome m Hi) as [[_ [Hd _]] | [Hd _]]; rewrite Hd; auto.
  - rewrite (read_uninit_run m Hi). auto.
Qed.

(** If the line stops answering at any of the 83 waits of a read (three
    for the handshake, two per data bit), [dht22_read] returns
    [DHT22_ERROR_TIMEOUT] and leaves the driver state and the result slots
    as they were. *)
Theorem dht22_read_silent_line (m : machine) (pre : list N) (rest : list (option N)) :
  initialized (drv m) = true ->
  edge_oracle (hw m) = map Some pre ++ None :: rest ->
  (length pre < 83)%nat ->
  fst (dht22_read m) = DHT22_ERROR_TIMEOUT /\
  drv (snd (dht22_read m)) = drv m /\ out (snd (dht22_read m)) = out m.
Proof.
  intros Hi Ho Hl.
  pose proof (dht22_read_timeout_result m pre rest Hi Ho Hl) as Hr.
  destruct (dht22_read_outcome m Hi) as [[_ [Hd Hout]] | [_ [[Hc _] | [Hc|Hc]]]];
    [auto | exfalso; rewrite Hr in Hc; codes ..].
Qed.

(** Two reads in a row: when the first one completes its capture (any
    result but a timeout) and the millisecond time then is not 0, the
    second read first sleeps the full 2000 ms before sending its start
    signal. *)
Theorem dht22_read_back_to_back (m : machine) :
  initialized (drv m) = true ->
  fst (dht22_read m) <> DHT22_ERROR_TIMEOUT ->
  ms_of (now_us (hw (snd (dht22_read m)))) <> 0 ->
  exists rest,
    io_log (hw (snd (dht22_read (snd (dht22_read m))))) =
    io_log (hw (snd (dht22_read m)))
    ++ EvSleepMs DHT22_MIN_INTERVAL_MS :: EvSetDir (pin (drv m)) GPIO_OUT :: rest.
Proof.
  intros Hi Hnt Hz.
  destruct (dht22_read_outcome m Hi) as [[Hr _] | [Hd _]]; [contradiction|].
  set (m1 := snd (dht22_read m)) in *.
  destruct (dht22_read_log m1) as [rest Hrest]; [rewrite Hd; reflexivity|].
  exists rest. rewrite Hrest, Hd. cbn [last_read_time_ms pin]. rewrite Z.sub_diag.
  replace (ms_of (now_us (hw m1)) =? 0) with false by (symmetry; apply Z.eqb_neq; exact Hz).
  reflexivity.
Qed.

(** [dht22_init] clears the pacing state: the first read after it, even
    right after an earlier read, goes straight to the start signal on the
    new pin without sleeping. *)
Theorem dht22_init_then_read (p : Z) (m : machine) :
  let m1 := snd (dht22_init p m) in
  exists rest, io_log (hw (snd (dht22_read m1))) = io_log (hw m1) ++ EvSetDir p GPIO_OUT :: rest.
Proof.
  intros m1.
  assert (Hd : drv m1 = mk_dht22_state 0 p true) by reflexivity.
  destruct (dht22_read_log m1) as [rest Hrest]; [rewrite Hd; reflexivity|].
  exists rest. rewrite Hrest, Hd. cbn [last_read_time_ms pin Z.eqb negb].
  rewrite andb_false_r. reflexivity.
Qed.

(** On bytes, the range check of [dht22_convert_data] succeeds exactly
    when the raw humidity word is at most 1000 and the raw temperature
    magnitude is at most 800, or at most 400 when the sign bit is set. *)
Theorem dht22_convert_data_ok_iff (data : list Z) (o : slots) :
  Forall (fun b => 0 <= b < 256) data ->
  let hum := Z.lor (Z.shiftl (nth 0 data 0) 8) (nth 1 data 0) in
  let mag := Z.lor (Z.shiftl (Z.land (nth 2 data 0) 127) 8) (nth 3 data 0) in
  fst (dht22_convert_data data o) = DHT22_OK <->
  hum <= 1000 /\ mag <= (if Z.testbit (nth 2 data 0) 7 then 400 else 800).
Proof.
  intros Hd hum mag.
  assert (Hn : forall k, 0 <= nth k data 0).
  { intros k. destruct (nth_in_or_default k data 0) as [Hin| ->]; [|lia].
    rewrite Forall_forall in Hd. apply Hd in Hin. lia. }
  assert (Hh0 : 0 <= hum)
    by (apply Z.lor_nonneg; split; [apply Z.shiftl_nonneg|]; apply Hn).
  assert (Hm0 : 0 <= mag)
    by (apply Z.lor_nonneg; split; [apply Z.shiftl_nonneg, Z.land_nonneg; left|]; apply Hn).
  rewrite convert_data_fst.
  destruct (convert_data_values data o) as [Hh Ht].
  set (o' := snd (dht22_convert_data data o)) in *.
  assert (Hc : (Qltb (humidity o') 0 || Qltb 100 (humidity o')
                || Qltb (temperature o') (-40) || Qltb 80 (temperature o')) = true <->
               ~ (hum <= 1000 /\ mag <= (if Z.testbit (nth 2 data 0) 7 then 400 else 800))).
  { rewrite range_check_spec, Hh, Ht. unfold spec_humidity, spec_temperature.
    fold hum mag. clearbody hum mag.
    destruct (Z.testbit (nth 2 data 0) 7); unfold Qlt; cbn; lia. }
  destruct (_ || _) eqn:C.
  - split; [intros H; codes | intros H; exfalso; apply Hc in H; [exact H | reflexivity]].
  - split; [intros _ | reflexivity].
    destruct (Z.le_gt_cases hum 1000), (Z.le_gt_cases mag (if Z.testbit (nth 2 data 0) 7 then 400 else 800));
      try (split; assumption); exfalso;
      (assert (false = true) by (apply Hc; lia); discriminate).
Qed.

(** A sensor whose 40 data pulses all last at most 50 us sends the all-zero
    frame, which passes the checksum and the range check: [dht22_read]
    returns [DHT22_OK] with 0.0 C and 0.0 %RH. *)
Theorem dht22_read_short_pulses (m : machine) h1 h2 h3 ps rest :
  initialized (drv m) = true ->
  length ps = 40%nat ->
  edge_oracle (hw m) = [Some h1; Some h2; Some h3] ++ bits_oracle ps ++ rest ->
  forallb (fun hl => pulse_of hl <=? DHT22_BIT_THRESHOLD) ps = true ->
  fst (dht22_read m) = DHT22_OK /\
  (temperature (out (snd (dht22_read m))) == 0)%Q /\
  (humidity (out (snd (dht22_read m))) == 0)%Q.
Proof.
  intros Hi Hl Ho Hs.
  destruct (dht22_read_captured m h1 h2 h3 ps rest Hi Hl Ho) as [_ E].
  replace (captured_frame ps) with [0; 0; 0; 0; 0] in E
    by (symmetry; apply decode_pulses_short, forallb_map_pulse, Hs).
  replace (dht22_verify_checksum [0; 0; 0; 0; 0] =? DHT22_OK) with true in E by reflexivity.
  rewrite convert_data_out_irrelevant in E.
  replace (dht22_convert_data [0; 0; 0; 0; 0] (mk_slots 0 0))
    with (DHT22_OK, mk_slots (0 # 10) (0 # 10)) in E by (vm_compute; reflexivity).
  injection E as E1 E2. rewrite E1, E2. cbn [humidity temperature].
  split; [reflexivity | split; reflexivity].
Qed.

(** ** Extra properties of environment-monitoring.c *)

(** [toggle_servo] makes one PWM call, on the given pin, with a level in
    [[600, 2400]] whatever the angle. *)
Theorem toggle_servo_level (gpio : Z) (angle : Q) (s : app_state) :
  exists level,
    app_log (toggle_servo gpio angle s) = app_log s ++ [AppPwmSetGpioLevel gpio level] /\
    600 <= level <= 2400.
Proof.
  unfold toggle_servo. eexists. split; [reflexivity|].
  set (a1 := if Qltb angle 0 then 0%Q else angle).
  assert (H1 : (0 <= a1)%Q).
  { subst a1. destruct (Qltb angle 0) eqn:E; [discriminate|].
    apply Qnot_lt_le. intros Hlt. apply Qltb_spec in Hlt. congruence. }
  set (a2 := if Qltb 180 a1 then 180%Q else a1).
  assert (H2 : (0 <= a2 /\ a2 <= 180)%Q).
  { subst a2. destruct (Qltb 180 a1) eqn:E; [split; discriminate|].
    split; [exact H1|]. apply Qnot_lt_le. intros Hlt. apply Qltb_spec in Hlt. congruence. }
  clearbody a1 a2. destruct H2 as [H2l H2u].
  assert (Hl : (Qfloor (Qmult 0 (Qdiv 1800 180)) <= Qfloor (Qmult a2 (Qdiv 1800 180)))%Z)
    by (apply Qfloor_resp_le, Qmult_le_compat_r; [exact H2l | discriminate]).
  assert (Hu : (Qfloor (Qmult a2 (Qdiv 1800 180)) <= Qfloor (Qmult 180 (Qdiv 1800 180)))%Z)
    by (apply Qfloor_resp_le, Qmult_le_compat_r; [exact H2u | discriminate]).
  change (Qfloor (Qmult 0 (Qdiv 1800 180))) with 0 in Hl.
  change (Qfloor (Qmult 180 (Qdiv 1800 180))) with 1800 in Hu.
  rewrite (Z.mod_small (Qfloor _)) by lia.
  rewrite Z.mod_small by lia. lia.
Qed.

(** One call of [temperature_monitoring]: after a read that returns
    [DHT22_OK], [servo_triggered] is [temperature > 30.0]; after a failed
    read, [servo_triggered] is unchanged and the servo is not commanded. *)
Theorem temperature_monitoring_servo (s : app_state) :
  let r := fst (dht22_read (mach s)) in
  let s' := temperature_monitoring s in
  temperature_result s' = r /\
  (r = DHT22_OK -> servo_triggered s' = Qltb 30 (temperature (out (mach s')))) /\
  (r <> DHT22_OK -> servo_triggered s' = servo_triggered s /\ app_log s' = app_log s).
Proof.
  intros r s'.
  destruct (temperature_monitoring_cases s) as (_ & Hr & _ & _ & Hok & _ & Hko).
  auto.
Qed.

(** In [main], after any number of passes of the loop and whatever the
    sensors do, [servo_triggered] is true exactly when the servo was last
    sent to 180 degrees (level 2400); when it is false the servo was
    never sent a level or was last sent to 0 degrees (level 600). *)
Theorem main_servo_consistent (n : nat) (m : machine) (samples : nat -> Z) :
  let s := main_after n (app_at_boot m samples) in
  (servo_triggered s = true -> last_servo_level (app_log s) = Some 2400) /\
  (servo_triggered s = false ->
     last_servo_level (app_log s) = None \/ last_servo_level (app_log s) = Some 600).
Proof.
  intros s.
  assert (H : servo_matches s) by (apply servo_matches_main_loop, setup_servo).
  unfold servo_matches in H. destruct (servo_triggered s); split; intros E; auto; discriminate.
Qed.

(** One pass of [main]'s loop, whatever the DHT22 read gives: the red LED
    is last written 1 exactly when the LDR sample (ADC input 0) is above
    1500, and the relay 1 exactly when the next sample, of the MQ2 (ADC
    input 1), is above 2000. *)
Theorem main_loop_body_outputs (s : app_state) :
  let v1 := adc_next s (adc_count s) in
  let v2 := adc_next s (S (adc_count s)) in
  last_put RED_LED_PIN (app_log (main_loop_body s)) = Some (if v1 >? LDR_THRESHOLD then 1 else 0) /\
  last_put RELE_PIN (app_log (main_loop_body s)) = Some (if v2 >? 2000 then 1 else 0) /\
  ldr_value (main_loop_body s) = v1 /\ mq2_value (main_loop_body s) = v2.
Proof.
  intros v1 v2.
  destruct (main_loop_body_log s) as (Hl & _ & _ & Hv1 & Hv2). fold v1 v2 in Hl, Hv1, Hv2.
  rewrite Hl. unfold last_put. rewrite !fold_left_app.
  split; [reflexivity | split; [reflexivity | auto]].
Qed.

(** From power-up, the driver's hardware calls up to the first read of
    [main]'s loop: [init_DHT22] configures pin 2 ([gpio_init], pull-up
    only) and the first read starts its start signal on pin 2 at once,
    without a pacing sleep. *)
Theorem main_first_read_no_pacing (m : machine) (samples : nat -> Z) :
  exists rest,
    io_log (hw (mach (main_after 1 (app_at_boot m samples)))) =
    io_log (hw m) ++ [EvGpioInit DHT22_PIN; EvSetPulls DHT22_PIN true false;
                      EvSetDir DHT22_PIN GPIO_OUT] ++ rest.
Proof.
  set (s0 := setup (with_servo_triggered false (app_at_boot m samples))).
  change (main_after 1 (app_at_boot m samples)) with (main_loop_body s0).
  destruct (main_loop_body_log s0) as (_ & _ & Hm & _).
  destruct (temperature_monitoring_cases s0) as (Ht & _).
  rewrite Hm, Ht. unfold s0. rewrite setup_mach. cbn [mach with_servo_triggered app_at_boot].
  set (m1 := snd (dht22_init DHT22_PIN m)).
  assert (Hd : drv m1 = mk_dht22_state 0 DHT22_PIN true) by reflexivity.
  assert (Hl : io_log (hw m1) = io_log (hw m) ++ [EvGpioInit DHT22_PIN; EvSetPulls DHT22_PIN true false])
    by (subst m1; cbn; rewrite <- app_assoc; reflexivity).
  destruct (dht22_read_log m1) as [rest Hrest]; [rewrite Hd; reflexivity|].
  exists rest. rewrite Hrest, Hl, Hd. cbn [last_read_time_ms pin Z.eqb negb].
  rewrite andb_false_r, <- !app_assoc. reflexivity.
Qed.

(** ** Witnesses of the extra properties *)

Lemma dht22_read_silent_line_witness :
  fst (dht22_read m_sensor_stops) = DHT22_ERROR_TIMEOUT /\
  drv (snd (dht22_read m_sensor_stops)) = drv m_sensor_stops /\
  out (snd (dht22_read m_sensor_stops)) = out m_sensor_stops.
Proof.
  apply (dht22_read_silent_line m_sensor_stops [80%N; 80%N; 80%N; 50%N] []);
    [reflexivity | reflexivity | cbn; lia].
Defined.

Lemma dht22_read_back_to_back_witness :
  exists rest,
    io_log (hw (snd (dht22_read (snd (dht22_read m_good_frame))))) =
    io_log (hw (snd (dht22_read m_good_frame)))
    ++ EvSleepMs DHT22_MIN_INTERVAL_MS :: EvSetDir (pin (drv m_good_frame)) GPIO_OUT :: rest.
Proof.
  apply (dht22_read_back_to_back m_good_frame); vm_compute; [reflexivity | discriminate | discriminate].
Defined.

Lemma dht22_convert_data_ok_iff_witness :
  fst (dht22_convert_data [1; 144; 0; 200; 89] (mk_slots 0 0)) = DHT22_OK <->
  Z.lor (Z.shiftl 1 8) 144 <= 1000 /\
  Z.lor (Z.shiftl (Z.land 0 127) 8) 200 <= (if Z.testbit 0 7 then 400 else 800).
Proof.
  apply (dht22_convert_data_ok_iff [1; 144; 0; 200; 89] (mk_slots 0 0)).
  repeat constructor; lia.
Defined.

Lemma dht22_read_short_pulses_witness :
  fst (dht22_read (sensor_sending [0; 0; 0; 0; 0])) = DHT22_OK /\
  Qeq (temperature (out (snd (dht22_read (sensor_sending [0; 0; 0; 0; 0]))))) 0 /\
  Qeq (humidity (out (snd (dht22_read (sensor_sending [0; 0; 0; 0; 0]))))) 0.
Proof.
  apply (dht22_read_short_pulses (sensor_sending [0; 0; 0; 0; 0]) 80%N 80%N 80%N
           (flat_map byte_pulses [0; 0; 0; 0; 0]) []);
    vm_compute; reflexivity.
Defined.
